(** * Instrumentation decorator of xray-poc

    A shallow embedding of [Source/instrumentation/__init__.py]: the
    [record] decorator, [record_data], [__assert_type__], [__record_data__]
    and [__record_error__], over an abstract tracing backend standing for
    the [xray_recorder] object of the AWS X-Ray SDK. *)

From Stdlib Require Import String Ascii List ZArith Bool Lia.
Import ListNotations.
Local Open Scope string_scope.
Set Warnings "-register-all".

(** ** Python values *)

(** The values the module inspects.  [PFloat m e] is the binary float
    [m * 2^e].  [PRecord] is an instance of the named tuple [Record]
    (line 22).  [PStrSub cls s] is an instance of a subclass [cls] of [str]
    that holds the characters [s]; [PMapping cls items] is an instance of a
    class [cls] other than [dict] whose method [items()] yields [items]: a
    subclass of [dict] ([OrderedDict], [defaultdict]) or any other mapping.
    For both, [type(v)] is the class [cls], not [str] or [dict].
    [PObj cls number] is an instance of any other class [cls], which has no
    method [items]; [number] tells whether the class is registered under
    [numbers.Number] (as [Decimal], [Fraction] and [complex] are). *)
Inductive pyval : Type :=
| PNone
| PBool (b : bool)
| PInt (z : Z)
| PFloat (m e : Z)
| PStr (s : string)
| PTuple (items : list pyval)
| PDict (items : list (pyval * pyval))
| PRecord (searchable non_searchable : pyval)
| PObj (cls : string) (number : bool)
| PStrSub (cls : string) (s : string)
| PMapping (cls : string) (items : list (pyval * pyval)).

(** What [type(v)] returns. *)
Inductive pytype : Type :=
| TNoneType | Tbool | Tint | Tfloat | Tstr | Ttuple | Tdict
| TInstrumentationRecord
| Tclass (cls : string).

Definition type_of (v : pyval) : pytype :=
  match v with
  | PNone => TNoneType
  | PBool _ => Tbool
  | PInt _ => Tint
  | PFloat _ _ => Tfloat
  | PStr _ => Tstr
  | PTuple _ => Ttuple
  | PDict _ => Tdict
  | PRecord _ _ => TInstrumentationRecord
  | PObj cls _ => Tclass cls
  | PStrSub cls _ => Tclass cls
  | PMapping cls _ => Tclass cls
  end.

Definition pytype_eqb (a b : pytype) : bool :=
  match a, b with
  | TNoneType, TNoneType | Tbool, Tbool | Tint, Tint | Tfloat, Tfloat
  | Tstr, Tstr | Ttuple, Ttuple | Tdict, Tdict
  | TInstrumentationRecord, TInstrumentationRecord => true
  | Tclass c, Tclass d => String.eqb c d
  | _, _ => false
  end.

(** [t in ts] on a list of types. *)
Definition type_in (t : pytype) (ts : list pytype) : bool :=
  existsb (pytype_eqb t) ts.

Definition type_name (t : pytype) : string :=
  match t with
  | TNoneType => "NoneType"
  | Tbool => "bool"
  | Tint => "int"
  | Tfloat => "float"
  | Tstr => "str"
  | Ttuple => "tuple"
  | Tdict => "dict"
  | TInstrumentationRecord => "InstrumentationRecord"
  | Tclass cls => cls
  end.

(** [isinstance(v, numbers.Number)]: [int] (hence its subclass [bool]) and
    [float] are registered numbers. *)
Definition isinstance_Number (v : pyval) : bool :=
  match v with
  | PBool _ | PInt _ | PFloat _ _ => true
  | PObj _ number => number
  | _ => false
  end.

(** ** Exceptions *)

(** A raised object: its class, what [__repr__] gives, and whether the class
    derives from [Exception] (the clause [except Exception] of line 73
    catches nothing else: [KeyboardInterrupt], [SystemExit] and
    [GeneratorExit] pass through it).  [__repr__] is code of the object's
    class: [exn_repr_raises] is [Some x] when the call raises [x] instead of
    returning, and [None] when it returns [exn_repr]. *)
Inductive exn : Type := mkRaised {
  exn_class : string;
  exn_repr : string;
  exn_is_Exception : bool;
  exn_repr_raises : option exn
}.

(** An exception object whose [__repr__] returns, as that of every built-in
    exception class does. *)
Definition mkExn (class repr : string) (is_Exception : bool) : exn :=
  mkRaised class repr is_Exception None.

Definition dquote : string := String (ascii_of_nat 34) EmptyString.

(** [ValueError(msg)] for a message without quotes. *)
Definition ValueError (msg : string) : exn :=
  mkExn "ValueError" ("ValueError('" ++ msg ++ "')") true.

(** The [AttributeError] of a missing attribute; its message holds single
    quotes, so [repr] delimits it with double quotes. *)
Definition AttributeError (t : pytype) (attr : string) : exn :=
  mkExn "AttributeError"
        ("AttributeError(" ++ dquote ++ "'" ++ type_name t
           ++ "' object has no attribute '" ++ attr ++ "'" ++ dquote ++ ")")
        true.

Inductive outcome (A : Type) : Type :=
| Ok (a : A)
| Raise (e : exn).
Arguments Ok {A} a.
Arguments Raise {A} e.

(** ** The tracing backend *)

(** The operations of [xray_recorder] and of the spans it hands out.  Each
    one may change the backend's state and may raise.  [current_segment]
    and [current_subsegment] return a span or [None]. *)
Class Backend : Type := {
  span : Type;
  world : Type;
  begin_subsegment : string -> world -> outcome unit * world;
  end_subsegment : world -> outcome unit * world;
  current_segment : world -> outcome (option span) * world;
  current_subsegment : world -> outcome (option span) * world;
  put_annotation : span -> pyval -> pyval -> world -> outcome unit * world;
  put_metadata : span -> pyval -> pyval -> world -> outcome unit * world
}.

(** ** A recording backend *)

(** A backend in the manner of the mocks of [Test/test_instrumentation.py]:
    one segment, a stack of open subsegments, and every span keeps the
    annotation and metadata calls made on it, in order.  A fault plan says
    which operations raise; an operation that raises changes nothing. *)
Module Mock.

Inductive op : Type :=
| OpBegin | OpEnd | OpCurrentSegment | OpCurrentSubsegment
| OpPutAnnotation | OpPutMetadata.

Record span_data : Type := mkSpan {
  span_name : string;
  annotations : list (pyval * pyval);
  metadata : list (pyval * pyval)
}.

(** Spans are addressed by depth: [0] is the segment, [S i] the open
    subsegment number [i] from the outermost. *)
Record world : Type := mkWorld {
  segment : option span_data;
  subsegments : list span_data;
  ended : list span_data;
  faults : op -> option exn
}.

Definition guard {A} (o : op) (w : world) (run : outcome A * world)
  : outcome A * world :=
  match faults w o with
  | Some e => (Raise e, w)
  | None => run
  end.

Definition begin_subsegment (name : string) (w : world)
  : outcome unit * world :=
  guard OpBegin w
    (Ok tt, mkWorld (segment w) (subsegments w ++ [mkSpan name [] []])
                    (ended w) (faults w)).

Definition end_subsegment (w : world) : outcome unit * world :=
  guard OpEnd w
    (match rev (subsegments w) with
     | [] => (Ok tt, w)
     | last :: before =>
         (Ok tt, mkWorld (segment w) (rev before) (last :: ended w)
                         (faults w))
     end).

Definition current_segment (w : world) : outcome (option nat) * world :=
  guard OpCurrentSegment w
    (Ok (match segment w with Some _ => Some 0 | None => None end), w).

Definition current_subsegment (w : world) : outcome (option nat) * world :=
  guard OpCurrentSubsegment w
    (Ok (match subsegments w with
         | [] => None
         | _ :: _ => Some (length (subsegments w))
         end), w).

Fixpoint update (i : nat) (g : span_data -> span_data)
    (l : list span_data) : list span_data :=
  match l, i with
  | [], _ => []
  | x :: rest, 0 => g x :: rest
  | x :: rest, S j => x :: update j g rest
  end.

Definition on_span (sp : nat) (g : span_data -> span_data) (w : world)
  : world :=
  match sp with
  | 0 => mkWorld (option_map g (segment w)) (subsegments w) (ended w)
                 (faults w)
  | S i => mkWorld (segment w) (update i g (subsegments w)) (ended w)
                   (faults w)
  end.

Definition put_annotation (sp : nat) (key value : pyval) (w : world)
  : outcome unit * world :=
  guard OpPutAnnotation w
    (Ok tt, on_span sp (fun d => mkSpan (span_name d)
                                   (annotations d ++ [(key, value)])
                                   (metadata d)) w).

Definition put_metadata (sp : nat) (key value : pyval) (w : world)
  : outcome unit * world :=
  guard OpPutMetadata w
    (Ok tt, on_span sp (fun d => mkSpan (span_name d) (annotations d)
                                   (metadata d ++ [(key, value)])) w).

Definition no_fault : op -> option exn := fun _ => None.

(** A request in flight: an empty segment, no subsegment. *)
Definition fresh (plan : op -> option exn) : world :=
  mkWorld (Some (mkSpan "segment" [] [])) [] [] plan.

End Mock.

#[export] Instance mock_backend : Backend := {
  span := nat;
  world := Mock.world;
  begin_subsegment := Mock.begin_subsegment;
  end_subsegment := Mock.end_subsegment;
  current_segment := Mock.current_segment;
  current_subsegment := Mock.current_subsegment;
  put_annotation := Mock.put_annotation;
  put_metadata := Mock.put_metadata
}.

(** ** The module *)

Section Instrumentation.

Context {B : Backend}.

(** The calls the module makes, in order. *)
Inductive event : Type :=
| EBegin (name : string)
| EEnd
| ECallF (arg : list pyval) (kwargs : list (string * pyval))
| ECallRecorder (result options : pyval)
| ECurrentSegment
| ECurrentSubsegment
| EPutAnnotation (sp : span) (key value : pyval)
| EPutMetadata (sp : span) (key value : pyval).

Record state : Type := mkState {
  log : list event;
  backend : world
}.

(** Computations that thread the state and may raise; the state reached
    when an exception is raised is kept. *)
Definition M (A : Type) : Type := state -> outcome A * state.

Definition ret {A} (a : A) : M A := fun st => (Ok a, st).

Definition raise {A} (e : exn) : M A := fun st => (Raise e, st).

Definition bind {A C} (m : M A) (k : A -> M C) : M C :=
  fun st =>
    match m st with
    | (Ok a, st1) => k a st1
    | (Raise e, st1) => (Raise e, st1)
    end.

Notation "x <- m ;; k" := (bind m (fun x => k))
  (at level 61, m at next level, right associativity).
Notation "m ;; k" := (bind m (fun _ => k))
  (at level 61, right associativity).

(** [try: m  except Exception as error: h error]. *)
Definition try_except {A} (m : M A) (h : exn -> M A) : M A :=
  fun st =>
    match m st with
    | (Ok a, st1) => (Ok a, st1)
    | (Raise e, st1) =>
        if exn_is_Exception e then h e st1 else (Raise e, st1)
    end.

(** [try: m  finally: fin]: [fin] runs on every exit of [m]; an exception
    of [fin] replaces the outcome of [m]. *)
Definition try_finally {A} (m : M A) (fin : M unit) : M A :=
  fun st =>
    match m st with
    | (o, st1) =>
        match fin st1 with
        | (Ok _, st2) => (o, st2)
        | (Raise e, st2) => (Raise e, st2)
        end
    end.

(** A call out of the module (to the backend, to the wrapped function, to
    the recorder): logged, then performed on the backend's state. *)
Definition call {A} (ev : event) (op : world -> outcome A * world) : M A :=
  fun st =>
    let (o, w) := op (backend st) in
    (o, mkState (log st ++ [ev]) w).

(** The wrapped function and the recorder are caller code: they act on the
    backend's state, return a value or raise. *)
Definition pyfun : Type :=
  list pyval -> list (string * pyval) -> world -> outcome pyval * world.

Definition recorder_fun : Type :=
  pyval -> pyval -> world -> outcome pyval * world.

(** The dict object bound to [**kwargs]. *)
Definition dict_of_kwargs (kwargs : list (string * pyval)) : pyval :=
  PDict (map (fun kv => (PStr (fst kv), snd kv)) kwargs).

Definition SEARCHABLE_TYPE_MSG : string :=
  "searchable value must be a string, number or bool".
Definition NON_SEARCHABLE_TYPE_MSG : string :=
  "non-searchable value must be a dictionary".

(** Lines 120-128.  [&] on two [bool]s is their conjunction. *)
Definition __assert_type__ (key value : pyval) (searchable : bool)
  : outcome unit :=
  if negb (pytype_eqb (type_of key) Tstr) then
    Raise (ValueError "key must be a string")
  else if searchable then
    if negb (type_in (type_of value) [Tstr; Tbool])
       && negb (isinstance_Number value)
    then Raise (ValueError SEARCHABLE_TYPE_MSG)
    else Ok tt
  else
    if negb (pytype_eqb (type_of value) Tdict)
    then Raise (ValueError NON_SEARCHABLE_TYPE_MSG)
    else Ok tt.

(** [span.put_annotation(key, value)] or [span.put_metadata(key, value)]
    (lines 110-113); on [None] the attribute lookup raises. *)
Definition put (sp : option span) (key value : pyval) (searchable : bool)
  : M unit :=
  match sp with
  | Some s =>
      if searchable
      then call (EPutAnnotation s key value) (put_annotation s key value)
      else call (EPutMetadata s key value) (put_metadata s key value)
  | None =>
      raise (AttributeError TNoneType
               (if searchable then "put_annotation" else "put_metadata"))
  end.

(** [subsegment if subsegment is not None else segment] (line 109). *)
Definition innermost (segment subsegment : option span) : option span :=
  match subsegment with
  | Some s => Some s
  | None => segment
  end.

(** Lines 107-113: the write that follows the validation. *)
Definition write_current_span (key value : pyval) (searchable : bool)
  : M unit :=
  segment <- call ECurrentSegment current_segment ;;
  subsegment <- call ECurrentSubsegment current_subsegment ;;
  put (innermost segment subsegment) key value searchable.

(** Lines 91-113. *)
Definition record_data (key value : pyval) (searchable : bool) : M unit :=
  match __assert_type__ key value searchable with
  | Raise e => raise e
  | Ok _ => write_current_span key value searchable
  end.

(** The loop of lines 134-135 over the items of a dict, in insertion
    order. *)
Fixpoint record_items (items : list (pyval * pyval)) (searchable : bool)
  : M unit :=
  match items with
  | [] => ret tt
  | (key, value) :: rest =>
      record_data key value searchable ;;
      record_items rest searchable
  end.

(** Lines 131-135.  [data.items()] is what a dict and every other mapping
    have; on a value without the method the attribute lookup raises. *)
Definition __record_data__ (data : pyval) (searchable : bool) : M unit :=
  match data with
  | PNone => ret tt
  | PDict items => record_items items searchable
  | PMapping _ items => record_items items searchable
  | other => raise (AttributeError (type_of other) "items")
  end.

(** The dict of line 140, when [error.__repr__()] returns. *)
Definition error_detail (error : exn) : pyval :=
  PDict [(PStr "message", PStr (exn_repr error))].

(** Lines 138-141.  The call [error.__repr__()] of line 140 comes after the
    first write and may itself raise; nothing guards it. *)
Definition __record_error__ (error : exn) : M unit :=
  record_data (PStr "instrumentation_error") (PBool true) true ;;
  match exn_repr_raises error with
  | Some x => raise x
  | None =>
      record_data (PStr "instrumentation_error_detail")
                  (error_detail error) false
  end.

(** Lines 69-71: [isinstance(data, Record)] and the two recordings. *)
Definition record_extracted (data : pyval) : M unit :=
  match data with
  | PRecord searchable non_searchable =>
      __record_data__ searchable true ;;
      __record_data__ non_searchable false
  | _ => ret tt
  end.

(** Lines 67-71.  Line 67 tests the truth value of [recorder], not
    whether one was given: [None] stands for every recorder that is falsy
    ([None], the default, and any callable object whose truth value is
    false), which is never called; [Some r] stands for a truthy one. *)
Definition run_recorder (recorder : option recorder_fun) (result : pyval)
    (kwargs : list (string * pyval)) : M unit :=
  match recorder with
  | Some r =>
      data <- call (ECallRecorder result (dict_of_kwargs kwargs))
                   (r result (dict_of_kwargs kwargs)) ;;
      record_extracted data
  | None => ret tt
  end.

(** The argument [recorder] of [record] as the test of line 67 sees it. *)
Definition recorder_argument (truthy : bool) (r : recorder_fun)
  : option recorder_fun :=
  if truthy then Some r else None.

(** Lines 64-65 and 76-77. *)
Definition open_scope (subsegment : option string) : M unit :=
  match subsegment with
  | Some name => call (EBegin name) (begin_subsegment name)
  | None => ret tt
  end.

Definition close_scope (subsegment : option string) : M unit :=
  match subsegment with
  | Some _ => call EEnd end_subsegment
  | None => ret tt
  end.

(** The [try] suite, lines 64-72. *)
Definition wrapper_try (recorder : option recorder_fun)
    (subsegment : option string) (f : pyfun)
    (arg : list pyval) (kwargs : list (string * pyval)) : M pyval :=
  open_scope subsegment ;;
  result <- call (ECallF arg kwargs) (f arg kwargs) ;;
  run_recorder recorder result kwargs ;;
  ret result.

(** The [except] suite, line 74; the function then falls off its end and
    returns [None]. *)
Definition wrapper_except (error : exn) : M pyval :=
  __record_error__ error ;;
  ret PNone.

(** The function [wrapper] that [record(recorder, subsegment)(f)] returns,
    lines 62-77. *)
Definition wrapper (recorder : option recorder_fun)
    (subsegment : option string) (f : pyfun)
    (arg : list pyval) (kwargs : list (string * pyval)) : M pyval :=
  try_finally
    (try_except (wrapper_try recorder subsegment f arg kwargs) wrapper_except)
    (close_scope subsegment).

(** Lines 60-80. *)
Definition wrapper_outer (recorder : option recorder_fun)
    (subsegment : option string) (f : pyfun)
  : list pyval -> list (string * pyval) -> M pyval :=
  wrapper recorder subsegment f.

(** Lines 41-80: the decorator. *)
Definition record (recorder : option recorder_fun)
    (subsegment : option string)
  : pyfun -> list pyval -> list (string * pyval) -> M pyval :=
  wrapper_outer recorder subsegment.

Local Open Scope list_scope.

(** ** Reading the log *)

(** The event of a write (lines 110-113). *)
Definition put_event (sp : span) (key value : pyval) (searchable : bool)
  : event :=
  if searchable then EPutAnnotation sp key value
  else EPutMetadata sp key value.

(** What a computation added to the log between two states. *)
Definition new_events (st st' : state) : list event :=
  skipn (length (log st)) (log st').

(** The indexed writes ([put_annotation]) of a log, as key and value. *)
Fixpoint annotation_writes (evs : list event) : list (pyval * pyval) :=
  match evs with
  | [] => []
  | EPutAnnotation _ key value :: rest =>
      (key, value) :: annotation_writes rest
  | _ :: rest => annotation_writes rest
  end.

(** The structured writes ([put_metadata]) of a log. *)
Fixpoint metadata_writes (evs : list event) : list (pyval * pyval) :=
  match evs with
  | [] => []
  | EPutMetadata _ key value :: rest =>
      (key, value) :: metadata_writes rest
  | _ :: rest => metadata_writes rest
  end.

(** The calls of the recorder in a log, as its two arguments. *)
Fixpoint recorder_calls (evs : list event) : list (pyval * pyval) :=
  match evs with
  | [] => []
  | ECallRecorder result options :: rest =>
      (result, options) :: recorder_calls rest
  | _ :: rest => recorder_calls rest
  end.

(** The calls of the wrapped function in a log, as its arguments. *)
Fixpoint f_calls (evs : list event)
  : list (list pyval * list (string * pyval)) :=
  match evs with
  | [] => []
  | ECallF arg kwargs :: rest => (arg, kwargs) :: f_calls rest
  | _ :: rest => f_calls rest
  end.

Definition is_scope_event (ev : event) : bool :=
  match ev with
  | EBegin _ | EEnd => true
  | _ => false
  end.

(** The backend operation behind a write. *)
Definition backend_put (sp : span) (key value : pyval) (searchable : bool)
  : world -> outcome unit * world :=
  if searchable then put_annotation sp key value
  else put_metadata sp key value.

(** [sp] is the span a write reaches from the backend state [w]: what
    [current_subsegment] returns if it is not [None], else what
    [current_segment] returns; the two queries leave the backend in [w']. *)
Definition innermost_at (w : world) (sp : span) (w' : world) : Prop :=
  exists segment subsegment w1,
    current_segment w = (Ok segment, w1) /\
    current_subsegment w1 = (Ok subsegment, w') /\
    innermost segment subsegment = Some sp.

(** The value classes that the tests of lines 121-128 accept: a value
    whose type is [str] itself, one whose type is [str] or [bool] itself or
    that is a number, one whose type is [dict] itself. *)
Definition spec_string (v : pyval) : bool :=
  match v with PStr _ => true | _ => false end.

Definition spec_string_boolean_or_numeric (v : pyval) : bool :=
  match v with
  | PStr _ | PBool _ | PInt _ | PFloat _ _ => true
  | PObj _ number => number
  | _ => false
  end.

Definition spec_mapping (v : pyval) : bool :=
  match v with PDict _ => true | _ => false end.

(** The value classes in the words of the specification: a string is an
    instance of [str], a mapping is a dict or any other mapping. *)
Definition is_string (v : pyval) : bool :=
  match v with PStr _ | PStrSub _ _ => true | _ => false end.

Definition is_string_boolean_or_numeric (v : pyval) : bool :=
  is_string v || isinstance_Number v.

Definition is_mapping (v : pyval) : bool :=
  match v with PDict _ | PMapping _ _ => true | _ => false end.

(** The type of [v] is a built-in type or a class of its own, not a
    subclass of [str] or a mapping class other than [dict]. *)
Definition exact_type (v : pyval) : bool :=
  match v with PStrSub _ _ | PMapping _ _ => false | _ => true end.

(** What a logged call does to the backend's state, for the wrapped
    function [f] and the recorder [recorder]. *)
Definition perform (f : pyfun) (recorder : option recorder_fun)
    (ev : event) (w : world) : world :=
  match ev with
  | EBegin name => snd (begin_subsegment name w)
  | EEnd => snd (end_subsegment w)
  | ECallF arg kwargs => snd (f arg kwargs w)
  | ECallRecorder result options =>
      match recorder with
      | Some r => snd (r result options w)
      | None => w
      end
  | ECurrentSegment => snd (current_segment w)
  | ECurrentSubsegment => snd (current_subsegment w)
  | EPutAnnotation sp key value => snd (put_annotation sp key value w)
  | EPutMetadata sp key value => snd (put_metadata sp key value w)
  end.

(** The backend's state after the calls [evs], made in order from [w]. *)
Definition replay (f : pyfun) (recorder : option recorder_fun)
    (evs : list event) (w : world) : world :=
  fold_left (fun w ev => perform f recorder ev w) evs w.

(** [m] appends to the log the calls it makes, and the backend's state it
    leaves is the one these calls produce. *)
Definition faithful {A} (f : pyfun) (recorder : option recorder_fun)
    (m : M A) : Prop :=
  forall st o st', m st = (o, st') ->
    exists evs,
      log st' = log st ++ evs /\
      backend st' = replay f recorder evs (backend st).

(** ** Vocabulary of the properties *)

(** [m] only appends to the log, and every event it appends satisfies
    [P]. *)
Definition appends {A} (P : event -> Prop) (m : M A) : Prop :=
  forall st o st', m st = (o, st') ->
    exists evs, log st' = log st ++ evs /\ Forall P evs.

(** A predicate that admits the two queries and every write. *)
Definition admits_writes (P : event -> Prop) : Prop :=
  P ECurrentSegment /\ P ECurrentSubsegment /\
  (forall sp key value, P (EPutAnnotation sp key value)) /\
  (forall sp key value, P (EPutMetadata sp key value)).

Definition not_scope_event (ev : event) : Prop := is_scope_event ev = false.

(** The scope calls of lines 65 and 77. *)
Definition open_events (subsegment : option string) : list event :=
  match subsegment with
  | Some name => [EBegin name]
  | None => []
  end.

Definition close_events (subsegment : option string) : list event :=
  match subsegment with
  | Some _ => [EEnd]
  | None => []
  end.

(** What follows the [try] suite: the [except] clause, entered on an
    instance of [Exception] only, and the [finally] clause, whose own
    exception replaces the outcome. *)
Definition except_stage (o1 : outcome pyval) (st1 : state)
  : outcome pyval * state :=
  match o1 with
  | Raise e => if exn_is_Exception e then wrapper_except e st1 else (o1, st1)
  | Ok _ => (o1, st1)
  end.

Definition finally_stage (subsegment : option string) (o2 : outcome pyval)
    (st2 : state) : outcome pyval * state :=
  match close_scope subsegment st2 with
  | (Ok _, st3) => (o2, st3)
  | (Raise e, st3) => (Raise e, st3)
  end.

(** The call of the recorder of line 68, when there is one. *)
Definition recorder_events (recorder : option recorder_fun)
    (result : pyval) (kwargs : list (string * pyval)) : list event :=
  match recorder with
  | Some _ => [ECallRecorder result (dict_of_kwargs kwargs)]
  | None => []
  end.

(** One of the steps of lines 66-71 raises [e], leaving the state [st1]:
    the wrapped function, the recorder, or the recording of what the
    recorder returned.  The scope, if any, was opened before. *)
Inductive step_raises (recorder : option recorder_fun)
    (subsegment : option string) (f : pyfun) (arg : list pyval)
    (kwargs : list (string * pyval)) (st : state) (e : exn) (st1 : state)
  : Prop :=
| f_raises s0 :
    open_scope subsegment st = (Ok tt, s0) ->
    call (ECallF arg kwargs) (f arg kwargs) s0 = (Raise e, st1) ->
    step_raises recorder subsegment f arg kwargs st e st1
| recorder_raises s0 result sa r :
    open_scope subsegment st = (Ok tt, s0) ->
    call (ECallF arg kwargs) (f arg kwargs) s0 = (Ok result, sa) ->
    recorder = Some r ->
    call (ECallRecorder result (dict_of_kwargs kwargs))
         (r result (dict_of_kwargs kwargs)) sa = (Raise e, st1) ->
    step_raises recorder subsegment f arg kwargs st e st1
| write_raises s0 result sa r data sb :
    open_scope subsegment st = (Ok tt, s0) ->
    call (ECallF arg kwargs) (f arg kwargs) s0 = (Ok result, sa) ->
    recorder = Some r ->
    call (ECallRecorder result (dict_of_kwargs kwargs))
         (r result (dict_of_kwargs kwargs)) sa = (Ok data, sb) ->
    record_extracted data sb = (Raise e, st1) ->
    step_raises recorder subsegment f arg kwargs st e st1.

(** The wrapped function returns [result] and the recorder's work, if any,
    completes, leaving the state [st1]. *)
Definition steps_complete (recorder : option recorder_fun)
    (subsegment : option string) (f : pyfun) (arg : list pyval)
    (kwargs : list (string * pyval)) (st : state) (result : pyval)
    (st1 : state) : Prop :=
  exists s0 sa,
    open_scope subsegment st = (Ok tt, s0) /\
    call (ECallF arg kwargs) (f arg kwargs) s0 = (Ok result, sa) /\
    run_recorder recorder result kwargs sa = (Ok tt, st1).

(** The events of the containment path: the error marker on [sp1], the
    error detail on [sp2]. *)
Definition error_events (sp1 sp2 : span) (error : exn) : list event :=
  [ECurrentSegment; ECurrentSubsegment;
   EPutAnnotation sp1 (PStr "instrumentation_error") (PBool true);
   ECurrentSegment; ECurrentSubsegment;
   EPutMetadata sp2 (PStr "instrumentation_error_detail")
                (error_detail error)].

(** An event that is no write, or is one of the two writes of the
    containment path. *)
Definition no_data_write (ev : event) : Prop :=
  match ev with
  | EPutAnnotation _ key value =>
      key = PStr "instrumentation_error" /\ value = PBool true
  | EPutMetadata _ key value =>
      key = PStr "instrumentation_error_detail" /\
      exists error, value = error_detail error
  | _ => True
  end.

(** An event of the recording steps and of the containment path: a query
    of the backend or a write. *)
Definition query_or_write (ev : event) : Prop :=
  match ev with
  | ECurrentSegment | ECurrentSubsegment
  | EPutAnnotation _ _ _ | EPutMetadata _ _ _ => True
  | _ => False
  end.

Definition is_record (v : pyval) : bool :=
  match v with PRecord _ _ => true | _ => false end.

(** A Record of which one half only is populated with [items]. *)
Definition one_half (searchable : bool) (items : list (pyval * pyval))
  : pyval :=
  if searchable then PRecord (PDict items) PNone
  else PRecord PNone (PDict items).

(** [options] is a mapping of the inputs of a call: a dict that holds
    every keyword argument under its name and every positional argument
    as a value. *)
Definition mapping_of_inputs (options : pyval) (arg : list pyval)
    (kwargs : list (string * pyval)) : Prop :=
  exists items,
    options = PDict items /\
    (forall k v, In (k, v) kwargs -> In (PStr k, v) items) /\
    (forall v, In v arg -> In v (map snd items)).

End Instrumentation.

Local Open Scope list_scope.

(** ** The claims as they are stated *)

(** C1 as stated: whenever a step raises, the wrapped call returns [None]
    without raising, and the two writes of the containment path are among
    the writes issued after the failure. *)
Definition containment_as_stated : Prop :=
  forall (B : Backend) recorder subsegment f arg kwargs st e st1,
    step_raises recorder subsegment f arg kwargs st e st1 ->
    exists st',
      wrapper recorder subsegment f arg kwargs st = (Ok PNone, st') /\
      In (PStr "instrumentation_error", PBool true)
         (annotation_writes (new_events st1 st')) /\
      In (PStr "instrumentation_error_detail", error_detail e)
         (metadata_writes (new_events st1 st')).

(** C3 as stated: when the wrapped function itself never raises, so that
    every error comes from the recorder, the writes or the scope calls, no
    exception escapes the wrapped call. *)
Definition no_escape_as_stated : Prop :=
  forall (B : Backend) recorder subsegment (f : pyfun) arg kwargs st,
    (forall a k w, exists result w', f a k w = (Ok result, w')) ->
    exists v st', wrapper recorder subsegment f arg kwargs st = (Ok v, st').

(** C6 as stated: for every Record of which one half only is populated,
    one write of that half's kind per entry and none of the other kind. *)
Definition one_half_as_stated : Prop :=
  forall (B : Backend) r subsegment f arg kwargs st s0 result sa
         searchable items sb,
    open_scope subsegment st = (Ok tt, s0) ->
    call (ECallF arg kwargs) (f arg kwargs) s0 = (Ok result, sa) ->
    call (ECallRecorder result (dict_of_kwargs kwargs))
         (r result (dict_of_kwargs kwargs)) sa
      = (Ok (one_half searchable items), sb) ->
    let evs :=
      new_events st (snd (wrapper (Some r) subsegment f arg kwargs st)) in
    (if searchable then annotation_writes evs else metadata_writes evs)
      = items /\
    (if searchable then metadata_writes evs else annotation_writes evs)
      = [].

(** C5 as stated: [record_data] raises exactly when the types are wrong,
    the key-type error for a key that is no string, the error of its kind
    for a value of the wrong class, and it succeeds otherwise. *)
Definition validation_as_stated : Prop :=
  forall (B : Backend) key value searchable st,
    (is_string key = false ->
       fst (record_data key value searchable st) =
         Raise (ValueError "key must be a string")) /\
    (is_string key = true ->
       fst (record_data key value searchable st) =
         if (if searchable then is_string_boolean_or_numeric value
             else is_mapping value)
         then Ok tt
         else Raise (ValueError (if searchable then SEARCHABLE_TYPE_MSG
                                 else NON_SEARCHABLE_TYPE_MSG))).

(** C7 as stated: the recorder is called once, with the result and a
    mapping of the arguments the call was made with. *)
Definition recorder_inputs_as_stated : Prop :=
  forall (B : Backend) r subsegment f arg kwargs st s0 result sa,
    open_scope subsegment st = (Ok tt, s0) ->
    call (ECallF arg kwargs) (f arg kwargs) s0 = (Ok result, sa) ->
    exists options,
      recorder_calls
        (new_events st (snd (wrapper (Some r) subsegment f arg kwargs st)))
        = [(result, options)] /\
      mapping_of_inputs options arg kwargs.

(** C9 as stated: when the wrapped function, the recorder and the data
    writes complete, the wrapped call returns the result. *)
Definition returns_result_as_stated : Prop :=
  forall (B : Backend) recorder subsegment f arg kwargs st result st1,
    steps_complete recorder subsegment f arg kwargs st result st1 ->
    fst (wrapper recorder subsegment f arg kwargs st) = Ok result.

(** ** Runs on the recording backend *)

Module Run.

Definition state0 (plan : Mock.op -> option exn) : @state mock_backend :=
  mkState [] (Mock.fresh plan).

(** The decorated function of the tests: [return 0, 'foo', 'bar']. *)
Definition dispatch : @pyfun mock_backend :=
  fun _ _ w => (Ok (PTuple [PInt 0; PStr "foo"; PStr "bar"]), w).

Definition returning (data : pyval) : @recorder_fun mock_backend :=
  fun _ _ w => (Ok data, w).

Definition raising (e : exn) : @recorder_fun mock_backend :=
  fun _ _ w => (Raise e, w).

Definition failing (e : exn) : @pyfun mock_backend :=
  fun _ _ w => (Raise e, w).

Fixpoint dict_get (key : string) (items : list (pyval * pyval))
  : option pyval :=
  match items with
  | [] => None
  | (PStr k, v) :: rest | (PStrSub _ k, v) :: rest =>
      if String.eqb k key then Some v else dict_get key rest
  | _ :: rest => dict_get key rest
  end.

Definition KeyError (key : string) : exn :=
  mkExn "KeyError" ("KeyError('" ++ key ++ "')") true.

Definition TypeError : exn :=
  mkExn "TypeError" "TypeError('object is not subscriptable')" true.

(** The recorder of [test_record_decorator_segment]. *)
Definition recorder : @recorder_fun mock_backend :=
  fun response options w =>
    match response, options with
    | PTuple [errors; type; value], PDict items =>
        match dict_get "message" items with
        | Some message =>
            (Ok (PRecord
                   (PDict [(PStr "id", message); (PStr "errors", errors)])
                   (PDict [(PStr "kpi",
                            PDict [(PStr "type", type);
                                   (PStr "value", value)])])), w)
        | None => (Raise (KeyError "message"), w)
        end
    | _, _ => (Raise TypeError, w)
    end.

Definition ZeroDivisionError : exn :=
  mkExn "ZeroDivisionError" "ZeroDivisionError('omg!')" true.

Definition RuntimeError : exn :=
  mkExn "RuntimeError" "RuntimeError('backend down')" true.

(** No instance of [Exception]: [KeyboardInterrupt] derives from
    [BaseException] directly. *)
Definition KeyboardInterrupt : exn :=
  mkExn "KeyboardInterrupt" "KeyboardInterrupt()" false.

(** An instance of a class derived from [Exception] whose [__repr__]
    raises [RuntimeError]. *)
Definition Unprintable : exn :=
  mkRaised "Unprintable" "" true (Some RuntimeError).

(** Fault plans: one operation raises, the others work. *)
Definition annotations_down (o : Mock.op) : option exn :=
  match o with Mock.OpPutAnnotation => Some RuntimeError | _ => None end.

Definition metadata_down (o : Mock.op) : option exn :=
  match o with Mock.OpPutMetadata => Some RuntimeError | _ => None end.

Definition end_down (o : Mock.op) : option exn :=
  match o with Mock.OpEnd => Some RuntimeError | _ => None end.

(** The keyword arguments of the call [dispatch(message='m1')]. *)
Definition message : list (string * pyval) := [("message", PStr "m1")].

(** [3.14], the double [7070651414971679 * 2^-51]. *)
Definition pi_ish : pyval := PFloat 7070651414971679 (-51).

(** A request whose subsegment [ss1] is open. *)
Definition in_subsegment : @state mock_backend :=
  mkState [] (Mock.mkWorld (Some (Mock.mkSpan "segment" [] []))
                           [Mock.mkSpan "ss1" [] []] [] Mock.no_fault).

End Run.

(** ** The rest of the module and its callers *)

(** What [Source/message_server.py] and the accessors of the module take
    from outside: the attributes [trace_id] and [id] of a segment (strings
    in the SDK), the property [json] of a Flask response (it may raise),
    the message of the [TypeError] that subscripting a value other than a
    dict raises, the HTTP call [urlopen(req).read()] on a URL and its
    headers, and the bodies of the two notification processors (lines
    56-58 and 63-65 of the server: a print, a sleep and a fresh uuid). *)
Class Services {B : Backend} : Type := {
  trace_id : span -> string;
  segment_id : span -> string;
  response_json : pyval -> outcome pyval;
  subscript_message : pyval -> string;
  urlopen_read :
    string -> list (string * string) -> world -> outcome unit * world;
  sms_body : pyfun;
  email_body : pyfun
}.

Section Callers.

Context {B : Backend} {S : Services}.

Notation "x <- m ;; k" := (bind m (fun x => k))
  (at level 61, m at next level, right associativity).
Notation "m ;; k" := (bind m (fun _ => k))
  (at level 61, right associativity).

(** A call that the log does not follow: performed on the backend's
    state. *)
Definition outside {A} (op : world -> outcome A * world) : M A :=
  fun st =>
    let (o, w) := op (backend st) in
    (o, mkState (log st) w).

(** [xray_recorder.current_segment().trace_id], lines 83-84 of the module;
    on [None] the attribute lookup raises. *)
Definition current_trace_id : M string :=
  segment <- call ECurrentSegment current_segment ;;
  match segment with
  | Some s => ret (trace_id s)
  | None => raise (AttributeError TNoneType "trace_id")
  end.

(** [xray_recorder.current_segment().id], lines 87-88 of the module. *)
Definition current_segment_id : M string :=
  segment <- call ECurrentSegment current_segment ;;
  match segment with
  | Some s => ret (segment_id s)
  | None => raise (AttributeError TNoneType "id")
  end.

(** [obj[key]] for a [str] key: the value under the key in a dict or
    another mapping, a [KeyError] when it has no such key, a [TypeError] on
    any other modelled value. *)
Definition subscript (obj : pyval) (key : string) : outcome pyval :=
  match obj with
  | PDict items | PMapping _ items =>
      match Run.dict_get key items with
      | Some v => Ok v
      | None => Raise (Run.KeyError key)
      end
  | other => Raise (mkExn "TypeError" (subscript_message other) true)
  end.

(** [recorder_segment], lines 19-25 of the server. *)
Definition recorder_segment : recorder_fun :=
  fun response options w =>
    match response_json response with
    | Raise e => (Raise e, w)
    | Ok json_data =>
        match subscript json_data "notificationid" with
        | Raise e => (Raise e, w)
        | Ok notificationid =>
            match subscript json_data "channel" with
            | Raise e => (Raise e, w)
            | Ok channel =>
                let resp_data :=
                  PDict [(PStr "id", notificationid);
                         (PStr "channel", channel)] in
                match subscript options "msgid" with
                | Raise e => (Raise e, w)
                | Ok msgid =>
                    let searchable_data :=
                      PDict [(PStr "messageid", msgid)] in
                    let non_searchable_data :=
                      PDict [(PStr "notification", resp_data)] in
                    (Ok (PRecord searchable_data non_searchable_data), w)
                end
            end
        end
    end.

(** [sms_processor] and [email_processor], lines 54-65 of the server: the
    two bodies under [@instrumentation.record(subsegment=...)]. *)
Definition sms_processor
  : list pyval -> list (string * pyval) -> M pyval :=
  record None (Some "sms"%string) sms_body.

Definition email_processor
  : list pyval -> list (string * pyval) -> M pyval :=
  record None (Some "email"%string) email_body.

(** [v == s] for a [str] literal [s]: among the modelled values only an
    instance of [str] with the same characters is equal to it. *)
Definition equals_str (v : pyval) (s : string) : bool :=
  match v with
  | PStr t | PStrSub _ t => String.eqb t s
  | _ => false
  end.

(** The channel of line 48 of the server. *)
Definition channel_of (priority : pyval) : string :=
  if equals_str priority "High" then "sms"%string else "email"%string.

(** [process_message], lines 42-51 of the server.  [msgid] is the [str]
    Flask binds from the route; building the request and adding the header
    do not raise and are folded into the HTTP call. *)
Definition process_message (msgid : string) (message priority : pyval)
  : M pyval :=
  let url := ("http://localhost:9000/process/" ++ msgid)%string in
  trace_id <- current_trace_id ;;
  parent_id <- current_segment_id ;;
  outside (urlopen_read url
             [("X-Amzn-Trace-Id"%string,
               ("Root=" ++ trace_id ++ ";Parent=" ++ parent_id)%string)]) ;;
  let channel := channel_of priority in
  let notification_processor :=
    if String.eqb channel "sms" then sms_processor else email_processor in
  notificationid <- notification_processor [PStr msgid; message] [] ;;
  ret (PDict [(PStr "notificationid", notificationid);
              (PStr "channel", PStr channel)]).

(** *** Vocabulary *)

(** The writes of a log in order, each with its kind ([true] for an
    annotation, [false] for a metadata). *)
Fixpoint writes (evs : list event) : list (bool * (pyval * pyval)) :=
  match evs with
  | [] => []
  | EPutAnnotation _ key value :: rest => (true, (key, value)) :: writes rest
  | EPutMetadata _ key value :: rest => (false, (key, value)) :: writes rest
  | _ :: rest => writes rest
  end.

(** The entries of one half of a Record: those of a dict or of another
    mapping, none otherwise. *)
Definition half_items (half : pyval) : list (pyval * pyval) :=
  match half with
  | PDict items | PMapping _ items => items
  | _ => []
  end.

Definition is_prefix {A} (l items : list A) : Prop :=
  exists rest, items = l ++ rest.

(** [op] keeps the invariant [Inv] of the backend, whatever its
    outcome. *)
Definition keeps {A} (Inv : world -> Prop)
    (op : world -> outcome A * world) : Prop :=
  forall w o w', Inv w -> op w = (o, w') -> Inv w'.

(** A backend that works as long as [Inv] holds: the scope opening keeps
    [Inv], the scope closing returns, the two queries answer with a span,
    and both writes are accepted. *)
Definition reliable (Inv : world -> Prop) : Prop :=
  (forall name, keeps Inv (begin_subsegment name)) /\
  (forall w, Inv w -> exists w', end_subsegment w = (Ok tt, w')) /\
  (forall w, Inv w -> exists sp w', innermost_at w sp w' /\ Inv w') /\
  (forall sp key value w, Inv w ->
     exists w', put_annotation sp key value w = (Ok tt, w') /\ Inv w') /\
  (forall sp key value w, Inv w ->
     exists w', put_metadata sp key value w = (Ok tt, w') /\ Inv w').

(** [m] keeps the invariant [Inv] on the backend's state. *)
Definition keepsM {A} (Inv : world -> Prop) (m : M A) : Prop :=
  forall st o st', Inv (backend st) -> m st = (o, st') -> Inv (backend st').

(** What the [except] clause of line 73 makes of the outcome of the [try]
    suite when its two writes are accepted: an instance of [Exception]
    becomes the return value [None], unless its [__repr__] raises. *)
Definition contained (o1 : outcome pyval) : outcome pyval :=
  match o1 with
  | Ok result => Ok result
  | Raise e =>
      if exn_is_Exception e then
        match exn_repr_raises e with
        | None => Ok PNone
        | Some x => Raise x
        end
      else Raise e
  end.

(** The characters of an instance of [str]. *)
Definition str_value (v : pyval) : option string :=
  match v with
  | PStr s | PStrSub _ s => Some s
  | _ => None
  end.

(** The body behind the processor that [process_message] selects. *)
Definition processor_body (priority : pyval) : pyfun :=
  if equals_str priority "High" then sms_body else email_body.

(** The header value of line 46 of the server. *)
Definition trace_header (trace parent : string) : string :=
  ("Root=" ++ trace ++ ";Parent=" ++ parent)%string.

(** The surroundings of [process_message] work as long as [Inv] holds: the
    backend is reliable, a segment is current, [begin_subsegment] and the
    HTTP call return, and the processor bodies keep [Inv] and raise
    nothing but instances of [Exception] whose [__repr__] returns. *)
Definition working_services (Inv : world -> Prop) : Prop :=
  reliable Inv /\
  (forall w, Inv w ->
     exists seg w', current_segment w = (Ok (Some seg), w') /\ Inv w') /\
  (forall name w, Inv w ->
     exists w', begin_subsegment name w = (Ok tt, w')) /\
  (forall url headers w, Inv w ->
     exists w', urlopen_read url headers w = (Ok tt, w') /\ Inv w') /\
  (forall priority a k, keeps Inv (processor_body priority a k)) /\
  (forall priority a k w x w',
     processor_body priority a k w = (Raise x, w') ->
     exn_is_Exception x = true /\ exn_repr_raises x = None).

End Callers.

(** Services for the recording backend: fixed identifiers, an HTTP call
    that returns, a response whose [json] is [json], and the given
    processor bodies. *)
Module Demo.

Definition services (json : outcome pyval) (sms email : @pyfun mock_backend)
  : @Services mock_backend := {|
  trace_id := fun _ => "1-5759e988-bd862e3fe1be46a994272793"%string;
  segment_id := fun _ => "53995c3f42cd8ad8"%string;
  response_json := fun _ => json;
  subscript_message := fun _ => "object is not subscriptable"%string;
  urlopen_read := fun _ _ w => (Ok tt, w);
  sms_body := sms;
  email_body := email
|}.

(** A processor body that returns its notification id. *)
Definition sends (id : string) : @pyfun mock_backend :=
  fun _ _ w => (Ok (PStr id), w).

(** A body of [dispatch] that returns the given response. *)
Definition answers (response : pyval) : @pyfun mock_backend :=
  fun _ _ w => (Ok response, w).

(** The JSON body [dispatch] answers with. *)
Definition notification : pyval :=
  PDict [(PStr "notificationid", PStr "sms:1"); (PStr "channel", PStr "sms")].

Definition response : pyval := PObj "Response" false.

(** A fault plan under which [begin_subsegment] raises. *)
Definition begin_down (o : Mock.op) : option exn :=
  match o with Mock.OpBegin => Some Run.RuntimeError | _ => None end.

(** The services of the examples: the response of [dispatch] carries
    [notification], the sms body fails and the email body sends. *)
Definition example : @Services mock_backend :=
  services (Ok notification) (Run.failing Run.ZeroDivisionError)
           (sends "email:1").

(** The recording backend outside a request: no segment is current. *)
Definition no_segment : @state mock_backend :=
  mkState [] (Mock.mkWorld None [] [] Mock.no_fault).

(** The invariant under which the recording backend works: a segment is
    current and the fault plan is empty. *)
Definition working (w : Mock.world) : Prop :=
  Mock.segment w <> None /\ forall o, Mock.faults w o = None.

End Demo.

(** ** Properties *)

Section Properties.

Context {B : Backend}.

Lemma new_events_app (st st' : state) (evs : list event) :
  log st' = log st ++ evs -> new_events st st' = evs.
Proof.
  intros H. unfold new_events. rewrite H.
  rewrite skipn_app, skipn_all, Nat.sub_diag. reflexivity.
Qed.

Lemma appends_ret {A} P (a : A) : appends P (ret a).
Proof.
  intros st o st' H. inversion H; subst. exists [].
  rewrite app_nil_r. auto.
Qed.

Lemma appends_raise {A} P (e : exn) : appends P (@raise _ A e).
Proof.
  intros st o st' H. inversion H; subst. exists [].
  rewrite app_nil_r. auto.
Qed.

Lemma appends_call {A} (P : event -> Prop) ev
    (op : world -> outcome A * world) :
  P ev -> appends P (call ev op).
Proof.
  intros HP st o st' H. unfold call in H.
  destruct (op (backend st)) as [o1 w]. inversion H; subst.
  exists [ev]. simpl. auto.
Qed.

Lemma appends_bind {A C} P (m : M A) (k : A -> M C) :
  appends P m -> (forall a, appends P (k a)) -> appends P (bind m k).
Proof.
  intros Hm Hk st o st' H. unfold bind in H.
  destruct (m st) as [[a | e] st1] eqn:E.
  - destruct (Hm _ _ _ E) as (evs1 & L1 & F1).
    destruct (Hk a _ _ _ H) as (evs2 & L2 & F2).
    exists (evs1 ++ evs2). rewrite L2, L1, app_assoc.
    split; [reflexivity | apply Forall_app; auto].
  - inversion H; subst. exact (Hm _ _ _ E).
Qed.

Lemma appends_try_except {A} P (m : M A) (h : exn -> M A) :
  appends P m -> (forall e, appends P (h e)) -> appends P (try_except m h).
Proof.
  intros Hm Hh st o st' H. unfold try_except in H.
  destruct (m st) as [[a | e] st1] eqn:E.
  - inversion H; subst. exact (Hm _ _ _ E).
  - destruct (exn_is_Exception e).
    + destruct (Hm _ _ _ E) as (evs1 & L1 & F1).
      destruct (Hh e _ _ _ H) as (evs2 & L2 & F2).
      exists (evs1 ++ evs2). rewrite L2, L1, app_assoc.
      split; [reflexivity | apply Forall_app; auto].
    + inversion H; subst. exact (Hm _ _ _ E).
Qed.

Lemma appends_try_finally {A} P (m : M A) (fin : M unit) :
  appends P m -> appends P fin -> appends P (try_finally m fin).
Proof.
  intros Hm Hf st o st' H. unfold try_finally in H.
  destruct (m st) as [o1 st1] eqn:E.
  destruct (fin st1) as [[u | e] st2] eqn:F; inversion H; subst;
    destruct (Hm _ _ _ E) as (evs1 & L1 & F1);
    destruct (Hf _ _ _ F) as (evs2 & L2 & F2);
    exists (evs1 ++ evs2); rewrite L2, L1, app_assoc;
    (split; [reflexivity | apply Forall_app; auto]).
Qed.

Lemma appends_weaken {A} (P Q : event -> Prop) (m : M A) :
  (forall ev, P ev -> Q ev) -> appends P m -> appends Q m.
Proof.
  intros HPQ Hm st o st' H.
  destruct (Hm _ _ _ H) as (evs & L & F).
  exists evs. split; [exact L | ].
  eapply Forall_impl; [ | exact F]. exact HPQ.
Qed.

Lemma type_is_str (v : pyval) :
  pytype_eqb (type_of v) Tstr = spec_string v.
Proof. destruct v; reflexivity. Qed.

Lemma type_is_dict (v : pyval) :
  pytype_eqb (type_of v) Tdict = spec_mapping v.
Proof. destruct v; reflexivity. Qed.

Lemma searchable_check (v : pyval) :
  negb (type_in (type_of v) [Tstr; Tbool]) && negb (isinstance_Number v)
  = negb (spec_string_boolean_or_numeric v).
Proof. destruct v; reflexivity. Qed.

(** What [__assert_type__] decides, by the three classes it tests. *)
Lemma assert_type_table (key value : pyval) (searchable : bool) :
  __assert_type__ key value searchable =
    if negb (spec_string key) then Raise (ValueError "key must be a string")
    else if searchable then
      if spec_string_boolean_or_numeric value then Ok tt
      else Raise (ValueError SEARCHABLE_TYPE_MSG)
    else
      if spec_mapping value then Ok tt
      else Raise (ValueError NON_SEARCHABLE_TYPE_MSG).
Proof.
  unfold __assert_type__.
  rewrite type_is_str, type_is_dict, searchable_check.
  destruct (spec_string key), searchable,
    (spec_string_boolean_or_numeric value), (spec_mapping value);
    reflexivity.
Qed.

Lemma record_data_invalid key value searchable e st :
  __assert_type__ key value searchable = Raise e ->
  record_data key value searchable st = (Raise e, st).
Proof. intros H. unfold record_data. rewrite H. reflexivity. Qed.

(** A valid write, once the two queries have answered, is one call on the
    innermost span. *)
Lemma record_data_valid key value searchable st segment subsegment w1 w2 sp :
  __assert_type__ key value searchable = Ok tt ->
  current_segment (backend st) = (Ok segment, w1) ->
  current_subsegment w1 = (Ok subsegment, w2) ->
  innermost segment subsegment = Some sp ->
  record_data key value searchable st =
    (fst (backend_put sp key value searchable w2),
     mkState (log st ++ [ECurrentSegment; ECurrentSubsegment;
                         put_event sp key value searchable])
             (snd (backend_put sp key value searchable w2))).
Proof.
  intros Hv Hs Hss Hi. unfold record_data, write_current_span. rewrite Hv.
  unfold bind, call. rewrite Hs. cbn [backend log]. rewrite Hss.
  rewrite Hi. unfold put, backend_put, put_event, call.
  destruct searchable; cbn.
  - destruct (put_annotation sp key value w2) as [o w3]. cbn.
    rewrite <- !app_assoc. reflexivity.
  - destruct (put_metadata sp key value w2) as [o w3]. cbn.
    rewrite <- !app_assoc. reflexivity.
Qed.

(** A write that completed made exactly the two queries and one call on the
    innermost span, and its types are valid. *)
Lemma record_data_ok_inv key value searchable st st' :
  record_data key value searchable st = (Ok tt, st') ->
  __assert_type__ key value searchable = Ok tt /\
  exists sp w',
    innermost_at (backend st) sp w' /\
    backend_put sp key value searchable w' = (Ok tt, backend st') /\
    log st' = log st ++ [ECurrentSegment; ECurrentSubsegment;
                         put_event sp key value searchable].
Proof.
  intros H. unfold record_data in H.
  destruct (__assert_type__ key value searchable) as [[] | e] eqn:Hv;
    [ | discriminate H].
  split; [reflexivity | ].
  unfold write_current_span, bind, call in H.
  destruct (current_segment (backend st)) as [[segment | e] w1] eqn:Hs;
    [ | discriminate H].
  cbn [backend log] in H.
  destruct (current_subsegment w1) as [[subsegment | e] w2] eqn:Hss;
    [ | discriminate H].
  destruct (innermost segment subsegment) as [sp | ] eqn:Hi;
    [ | discriminate H].
  exists sp, w2. split; [exists segment, subsegment, w1; auto | ].
  unfold put, call in H.
  unfold backend_put, put_event.
  destruct searchable; cbn in H.
  - destruct (put_annotation sp key value w2) as [[[] | e] w3];
      inversion H; subst; cbn. rewrite <- !app_assoc. auto.
  - destruct (put_metadata sp key value w2) as [[[] | e] w3];
      inversion H; subst; cbn. rewrite <- !app_assoc. auto.
Qed.

(** Whatever happens, [record_data] adds nothing to the log but its two
    queries and its one write. *)
Lemma record_data_appends key value searchable :
  appends (fun ev => ev = ECurrentSegment \/ ev = ECurrentSubsegment \/
                     exists sp, ev = put_event sp key value searchable)
          (record_data key value searchable).
Proof.
  unfold record_data, write_current_span.
  destruct (__assert_type__ key value searchable);
    [ | apply appends_raise].
  apply appends_bind; [apply appends_call; auto | intros segment].
  apply appends_bind; [apply appends_call; auto | intros subsegment].
  unfold put. destruct (innermost segment subsegment) as [sp | ];
    [ | apply appends_raise].
  destruct searchable; apply appends_call; right; right; exists sp;
    reflexivity.
Qed.

Lemma record_data_appends_any P key value searchable :
  admits_writes P -> appends P (record_data key value searchable).
Proof.
  intros (H1 & H2 & H3 & H4).
  eapply appends_weaken; [ | apply record_data_appends].
  intros ev [-> | [-> | [sp ->]]]; auto.
  unfold put_event. destruct searchable; auto.
Qed.

Lemma record_items_appends P items searchable :
  admits_writes P -> appends P (record_items items searchable).
Proof.
  intros HP. induction items as [ | [key value] rest IH]; simpl.
  - apply appends_ret.
  - apply appends_bind; [apply record_data_appends_any; exact HP | ].
    intros _. exact IH.
Qed.

Lemma __record_data___appends P data searchable :
  admits_writes P -> appends P (__record_data__ data searchable).
Proof.
  intros HP. destruct data; simpl;
    try apply appends_raise; try apply appends_ret;
    apply record_items_appends; exact HP.
Qed.

Lemma record_extracted_appends P data :
  admits_writes P -> appends P (record_extracted data).
Proof.
  intros HP. destruct data; simpl; try apply appends_ret.
  apply appends_bind; [ | intros _];
    apply __record_data___appends; exact HP.
Qed.

Lemma run_recorder_appends P recorder result kwargs :
  admits_writes P ->
  (forall options, P (ECallRecorder result options)) ->
  appends P (run_recorder recorder result kwargs).
Proof.
  intros HP HR. destruct recorder as [r | ]; simpl; [ | apply appends_ret].
  apply appends_bind; [apply appends_call; apply HR | ].
  intros data. apply record_extracted_appends. exact HP.
Qed.

Lemma __record_error___appends P error :
  admits_writes P -> appends P (__record_error__ error).
Proof.
  intros HP. unfold __record_error__.
  apply appends_bind; [apply record_data_appends_any; exact HP | intros _].
  destruct (exn_repr_raises error);
    [apply appends_raise | apply record_data_appends_any; exact HP].
Qed.

Lemma wrapper_except_appends P error :
  admits_writes P -> appends P (wrapper_except error).
Proof.
  intros HP. unfold wrapper_except.
  apply appends_bind; [apply __record_error___appends; exact HP | ].
  intros _. apply appends_ret.
Qed.

(** The [try] suite after the scope is opened: lines 66-72. *)
Lemma wrapper_try_unfold recorder subsegment f arg kwargs :
  wrapper_try recorder subsegment f arg kwargs =
  bind (open_scope subsegment)
       (fun _ =>
          bind (call (ECallF arg kwargs) (f arg kwargs))
               (fun result =>
                  bind (run_recorder recorder result kwargs)
                       (fun _ => ret result))).
Proof. reflexivity. Qed.

Lemma run_and_record_appends P recorder f arg kwargs :
  admits_writes P ->
  (forall result options, P (ECallRecorder result options)) ->
  P (ECallF arg kwargs) ->
  appends P (bind (call (ECallF arg kwargs) (f arg kwargs))
                  (fun result =>
                     bind (run_recorder recorder result kwargs)
                          (fun _ => ret result))).
Proof.
  intros HP HR HF.
  apply appends_bind; [apply appends_call; exact HF | intros result].
  apply appends_bind; [apply run_recorder_appends; auto | ].
  intros _. apply appends_ret.
Qed.

Lemma not_scope_admits_writes : admits_writes not_scope_event.
Proof. repeat split. Qed.

Lemma open_scope_log subsegment st o st' :
  open_scope subsegment st = (o, st') ->
  log st' = log st ++ open_events subsegment.
Proof.
  destruct subsegment as [name | ]; simpl; intros H.
  - unfold call in H.
    destruct (begin_subsegment name (backend st)); inversion H; subst.
    reflexivity.
  - inversion H; subst. rewrite app_nil_r. reflexivity.
Qed.

Lemma close_scope_log subsegment st o st' :
  close_scope subsegment st = (o, st') ->
  log st' = log st ++ close_events subsegment.
Proof.
  destruct subsegment as [name | ]; simpl; intros H.
  - unfold call in H.
    destruct (end_subsegment (backend st)); inversion H; subst.
    reflexivity.
  - inversion H; subst. rewrite app_nil_r. reflexivity.
Qed.

(** The three stages of a wrapped call: the [try] suite, the [except]
    suite when an [Exception] was raised, the [finally] suite. *)
Lemma wrapper_stages recorder subsegment f arg kwargs st :
  wrapper recorder subsegment f arg kwargs st =
    let (o1, st1) := wrapper_try recorder subsegment f arg kwargs st in
    let (o2, st2) := except_stage o1 st1 in
    finally_stage subsegment o2 st2.
Proof.
  unfold wrapper, try_finally, try_except, except_stage, finally_stage.
  destruct (wrapper_try recorder subsegment f arg kwargs st)
    as [[r | e] st1]; [reflexivity | ].
  destruct (exn_is_Exception e); [ | reflexivity].
  destruct (wrapper_except e st1); reflexivity.
Qed.

Lemma except_stage_log P o1 st1 o2 st2 :
  (forall e, appends P (wrapper_except e)) ->
  except_stage o1 st1 = (o2, st2) ->
  exists work, log st2 = log st1 ++ work /\ Forall P work.
Proof.
  intros HE H. unfold except_stage in H. destruct o1 as [r | e].
  - inversion H; subst. exists []. rewrite app_nil_r. auto.
  - destruct (exn_is_Exception e).
    + exact (HE e _ _ _ H).
    + inversion H; subst. exists []. rewrite app_nil_r. auto.
Qed.

Lemma finally_stage_log subsegment o2 st2 o3 st3 :
  finally_stage subsegment o2 st2 = (o3, st3) ->
  log st3 = log st2 ++ close_events subsegment.
Proof.
  unfold finally_stage. intros H.
  destruct (close_scope subsegment st2) as [[[] | e] s] eqn:Hc;
    inversion H; subst; exact (close_scope_log _ _ _ _ Hc).
Qed.

(** The [try] suite logs the scope opening first, then events admitted by
    [P]. *)
Lemma wrapper_try_log P recorder subsegment f arg kwargs st o st' :
  appends P (bind (call (ECallF arg kwargs) (f arg kwargs))
                  (fun result =>
                     bind (run_recorder recorder result kwargs)
                          (fun _ => ret result))) ->
  wrapper_try recorder subsegment f arg kwargs st = (o, st') ->
  exists mid,
    log st' = log st ++ open_events subsegment ++ mid /\ Forall P mid.
Proof.
  intros HP H. rewrite wrapper_try_unfold in H.
  unfold bind at 1 in H.
  destruct (open_scope subsegment st) as [[[] | e] s0] eqn:Ho.
  - apply open_scope_log in Ho.
    destruct (HP _ _ _ H) as (mid & L & F).
    exists mid. rewrite L, Ho, app_assoc. auto.
  - inversion H; subst. apply open_scope_log in Ho.
    exists []. rewrite app_nil_r. auto.
Qed.

(** The whole call: scope opening, admitted events, scope closing. *)
Lemma wrapper_log_of P recorder subsegment f arg kwargs st :
  appends P (bind (call (ECallF arg kwargs) (f arg kwargs))
                  (fun result =>
                     bind (run_recorder recorder result kwargs)
                          (fun _ => ret result))) ->
  (forall e, appends P (wrapper_except e)) ->
  exists mid,
    log (snd (wrapper recorder subsegment f arg kwargs st)) =
      log st ++ open_events subsegment ++ mid ++ close_events subsegment /\
    Forall P mid.
Proof.
  intros HP HE. rewrite wrapper_stages.
  destruct (wrapper_try recorder subsegment f arg kwargs st)
    as [o1 st1] eqn:Ht.
  destruct (wrapper_try_log P _ _ _ _ _ _ _ _ HP Ht) as (mid1 & L1 & F1).
  destruct (except_stage o1 st1) as [o2 st2] eqn:Hx.
  destruct (except_stage_log P _ _ _ _ HE Hx) as (mid2 & L2 & F2).
  destruct (finally_stage subsegment o2 st2) as [o3 st3] eqn:Hc.
  apply finally_stage_log in Hc.
  exists (mid1 ++ mid2). split; [ | apply Forall_app; auto].
  simpl. rewrite Hc, L2, L1, <- !app_assoc. reflexivity.
Qed.

Lemma wrapper_log P recorder subsegment f arg kwargs st :
  admits_writes P ->
  (forall result options, P (ECallRecorder result options)) ->
  P (ECallF arg kwargs) ->
  exists mid,
    log (snd (wrapper recorder subsegment f arg kwargs st)) =
      log st ++ open_events subsegment ++ mid ++ close_events subsegment /\
    Forall P mid.
Proof.
  intros HP HR HF. apply wrapper_log_of.
  - apply run_and_record_appends; assumption.
  - intros e. apply wrapper_except_appends. exact HP.
Qed.

Lemma replay_app f recorder l1 l2 w :
  replay f recorder (l1 ++ l2) w =
  replay f recorder l2 (replay f recorder l1 w).
Proof. unfold replay. apply fold_left_app. Qed.

Lemma faithful_ret {A} f recorder (a : A) : faithful f recorder (ret a).
Proof.
  intros st o st' H. inversion H; subst. exists [].
  rewrite app_nil_r. auto.
Qed.

Lemma faithful_raise {A} f recorder (e : exn) :
  faithful f recorder (@raise _ A e).
Proof.
  intros st o st' H. inversion H; subst. exists [].
  rewrite app_nil_r. auto.
Qed.

(** A logged call is faithful when the event names the operation made. *)
Lemma faithful_call {A} f recorder ev (op : world -> outcome A * world) :
  (forall w, snd (op w) = perform f recorder ev w) ->
  faithful f recorder (call ev op).
Proof.
  intros Hop st o st' H. unfold call in H.
  destruct (op (backend st)) as [o1 w] eqn:E. inversion H; subst.
  exists [ev]. split; [reflexivity | ].
  cbn. rewrite <- Hop, E. reflexivity.
Qed.

Lemma faithful_bind {A C} f recorder (m : M A) (k : A -> M C) :
  faithful f recorder m -> (forall a, faithful f recorder (k a)) ->
  faithful f recorder (bind m k).
Proof.
  intros Hm Hk st o st' H. unfold bind in H.
  destruct (m st) as [[a | e] st1] eqn:E.
  - destruct (Hm _ _ _ E) as (evs1 & L1 & B1).
    destruct (Hk a _ _ _ H) as (evs2 & L2 & B2).
    exists (evs1 ++ evs2). rewrite L2, L1, app_assoc.
    split; [reflexivity | ]. rewrite B2, B1, replay_app. reflexivity.
  - inversion H; subst. exact (Hm _ _ _ E).
Qed.

Lemma faithful_try_except {A} f recorder (m : M A) (h : exn -> M A) :
  faithful f recorder m -> (forall e, faithful f recorder (h e)) ->
  faithful f recorder (try_except m h).
Proof.
  intros Hm Hh st o st' H. unfold try_except in H.
  destruct (m st) as [[a | e] st1] eqn:E.
  - inversion H; subst. exact (Hm _ _ _ E).
  - destruct (exn_is_Exception e).
    + destruct (Hm _ _ _ E) as (evs1 & L1 & B1).
      destruct (Hh e _ _ _ H) as (evs2 & L2 & B2).
      exists (evs1 ++ evs2). rewrite L2, L1, app_assoc.
      split; [reflexivity | ]. rewrite B2, B1, replay_app. reflexivity.
    + inversion H; subst. exact (Hm _ _ _ E).
Qed.

Lemma faithful_try_finally {A} f recorder (m : M A) (fin : M unit) :
  faithful f recorder m -> faithful f recorder fin ->
  faithful f recorder (try_finally m fin).
Proof.
  intros Hm Hf st o st' H. unfold try_finally in H.
  destruct (m st) as [o1 st1] eqn:E.
  destruct (fin st1) as [[u | e] st2] eqn:F; inversion H; subst;
    destruct (Hm _ _ _ E) as (evs1 & L1 & B1);
    destruct (Hf _ _ _ F) as (evs2 & L2 & B2);
    exists (evs1 ++ evs2); rewrite L2, L1, app_assoc;
    (split; [reflexivity | rewrite B2, B1, replay_app; reflexivity]).
Qed.

Lemma record_data_faithful f recorder key value searchable :
  faithful f recorder (record_data key value searchable).
Proof.
  unfold record_data, write_current_span.
  destruct (__assert_type__ key value searchable);
    [ | apply faithful_raise].
  apply faithful_bind; [apply faithful_call; reflexivity | intros segment].
  apply faithful_bind; [apply faithful_call; reflexivity | ].
  intros subsegment.
  unfold put. destruct (innermost segment subsegment) as [sp | ];
    [ | apply faithful_raise].
  destruct searchable; apply faithful_call; reflexivity.
Qed.

Lemma record_items_faithful f recorder items searchable :
  faithful f recorder (record_items items searchable).
Proof.
  induction items as [ | [key value] rest IH]; simpl.
  - apply faithful_ret.
  - apply faithful_bind; [apply record_data_faithful | intros _; exact IH].
Qed.

Lemma __record_data___faithful f recorder data searchable :
  faithful f recorder (__record_data__ data searchable).
Proof.
  destruct data; simpl;
    try apply faithful_raise; try apply faithful_ret;
    apply record_items_faithful.
Qed.

Lemma record_extracted_faithful f recorder data :
  faithful f recorder (record_extracted data).
Proof.
  destruct data; simpl; try apply faithful_ret.
  apply faithful_bind; [ | intros _]; apply __record_data___faithful.
Qed.

Lemma run_recorder_faithful f recorder result kwargs :
  faithful f recorder (run_recorder recorder result kwargs).
Proof.
  destruct recorder as [r | ]; simpl; [ | apply faithful_ret].
  apply faithful_bind; [apply faithful_call; reflexivity | ].
  intros data. apply record_extracted_faithful.
Qed.

Lemma wrapper_except_faithful f recorder error :
  faithful f recorder (wrapper_except error).
Proof.
  unfold wrapper_except, __record_error__.
  apply faithful_bind; [ | intros _; apply faithful_ret].
  apply faithful_bind; [apply record_data_faithful | intros _].
  destruct (exn_repr_raises error);
    [apply faithful_raise | apply record_data_faithful].
Qed.

Lemma close_scope_faithful f recorder subsegment :
  faithful f recorder (close_scope subsegment).
Proof.
  destruct subsegment; simpl;
    [apply faithful_call; reflexivity | apply faithful_ret].
Qed.

Lemma wrapper_try_faithful recorder subsegment f arg kwargs :
  faithful f recorder (wrapper_try recorder subsegment f arg kwargs).
Proof.
  rewrite wrapper_try_unfold. apply faithful_bind.
  - destruct subsegment; simpl;
      [apply faithful_call; reflexivity | apply faithful_ret].
  - intros _. apply faithful_bind; [apply faithful_call; reflexivity | ].
    intros result.
    apply faithful_bind; [apply run_recorder_faithful | ].
    intros _. apply faithful_ret.
Qed.

(** The backend's state after a wrapped call is the one that the logged
    calls produce, made in order from the state before: every logged call
    was made, and no other. *)
Lemma wrapper_backend recorder subsegment f arg kwargs st :
  backend (snd (wrapper recorder subsegment f arg kwargs st)) =
    replay f recorder
      (new_events st (snd (wrapper recorder subsegment f arg kwargs st)))
      (backend st).
Proof.
  destruct (wrapper recorder subsegment f arg kwargs st) as [o st'] eqn:H.
  assert (Hf : faithful f recorder
                 (wrapper recorder subsegment f arg kwargs)).
  { unfold wrapper. apply faithful_try_finally.
    - apply faithful_try_except; [apply wrapper_try_faithful | ].
      intros e. apply wrapper_except_faithful.
    - apply close_scope_faithful. }
  destruct (Hf _ _ _ H) as (evs & L & Hb).
  cbn [snd]. rewrite (new_events_app _ _ _ L). exact Hb.
Qed.

Lemma replay_bracket f recorder name mid w :
  replay f recorder (EBegin name :: mid ++ [EEnd]) w =
    snd (end_subsegment
           (replay f recorder mid (snd (begin_subsegment name w)))).
Proof.
  change (EBegin name :: mid ++ [EEnd])
    with ([EBegin name] ++ mid ++ [EEnd]).
  rewrite !replay_app. reflexivity.
Qed.

(** C2.  A wrapped call constructed with a scope name calls
    [begin_subsegment] with that name on the backend before anything else
    -- in particular before the wrapped function -- and calls
    [end_subsegment] exactly once, as its last action, on every exit path:
    whatever the wrapped function, the recorder and the backend do, the
    calls made in between ([mid]: the wrapped function, the recorder, the
    queries and the writes) are no scope calls, and the backend is left in
    the state that [begin_subsegment], these calls and [end_subsegment]
    produce in this order.  Without a scope name the call makes no scope
    call at all: the backend's state is the one the other calls
    produce. *)
Theorem wrapper_scope_bracket recorder subsegment f arg kwargs st :
  exists mid,
    Forall not_scope_event mid /\
    new_events st (snd (wrapper recorder subsegment f arg kwargs st)) =
      match subsegment with
      | Some name => EBegin name :: mid ++ [EEnd]
      | None => mid
      end /\
    backend (snd (wrapper recorder subsegment f arg kwargs st)) =
      match subsegment with
      | Some name =>
          snd (end_subsegment
                 (replay f recorder mid
                    (snd (begin_subsegment name (backend st)))))
      | None => replay f recorder mid (backend st)
      end.
Proof.
  destruct (wrapper_log not_scope_event recorder subsegment f arg kwargs st)
    as (mid & L & F).
  - exact not_scope_admits_writes.
  - reflexivity.
  - reflexivity.
  - exists mid. split; [exact F | ].
    rewrite wrapper_backend, (new_events_app _ _ _ L).
    destruct subsegment as [name | ]; simpl app.
    + split; [reflexivity | apply replay_bracket].
    + rewrite app_nil_r. split; reflexivity.
Qed.

(** C4.  A call of [record_data] that passes the validation, in a backend
    whose two queries answer, makes exactly one write, and makes it on the
    innermost span: on the subsegment [current_subsegment] returned when
    there is one (the segment receives nothing), on the segment
    [current_segment] returned when there is none.  The write is an
    annotation when [searchable] is true and a metadata otherwise. *)
Theorem record_data_targets_innermost key value searchable st
    segment subsegment w1 w2 :
  __assert_type__ key value searchable = Ok tt ->
  current_segment (backend st) = (Ok segment, w1) ->
  current_subsegment w1 = (Ok subsegment, w2) ->
  (forall sub, subsegment = Some sub ->
     record_data key value searchable st =
       (fst (backend_put sub key value searchable w2),
        mkState (log st ++ [ECurrentSegment; ECurrentSubsegment;
                            put_event sub key value searchable])
                (snd (backend_put sub key value searchable w2)))) /\
  (forall seg, subsegment = None -> segment = Some seg ->
     record_data key value searchable st =
       (fst (backend_put seg key value searchable w2),
        mkState (log st ++ [ECurrentSegment; ECurrentSubsegment;
                            put_event seg key value searchable])
                (snd (backend_put seg key value searchable w2)))).
Proof.
  intros Hv Hs Hss. split.
  - intros sub ->. eapply record_data_valid; eauto.
  - intros seg -> ->. eapply record_data_valid; eauto.
Qed.

Lemma exact_string (v : pyval) :
  is_string v = true -> exact_type v = true -> spec_string v = true.
Proof. destruct v; simpl; intros H1 H2; congruence. Qed.

Lemma not_string (v : pyval) : is_string v = false -> spec_string v = false.
Proof. destruct v; simpl; intros H; congruence. Qed.

Lemma exact_valid_value (v : pyval) (searchable : bool) :
  exact_type v = true ->
  (if searchable then is_string_boolean_or_numeric v else is_mapping v)
    = true ->
  (if searchable then spec_string_boolean_or_numeric v else spec_mapping v)
    = true.
Proof.
  unfold is_string_boolean_or_numeric.
  destruct searchable, v; simpl; intros H1 H2; congruence.
Qed.

Lemma invalid_value (v : pyval) (searchable : bool) :
  (if searchable then is_string_boolean_or_numeric v else is_mapping v)
    = false ->
  (if searchable then spec_string_boolean_or_numeric v else spec_mapping v)
    = false.
Proof.
  unfold is_string_boolean_or_numeric.
  destruct searchable, v; simpl; intros H; congruence.
Qed.

(** C5, as amended.  [record_data] validates before it writes.  A key that
    is no string raises the key-type error.  With a key of type [str]: a
    searchable value that is no string, boolean or number raises the
    searchable-type error, and a non-searchable value that is no mapping
    raises the non-searchable-type error; a call that fails the validation
    raises with the state untouched, no backend call having been made.  A
    value of type [str] or [bool], or a number, when searchable, and a
    value of type [dict] when not, passes the validation; the call then
    goes on to the write of lines 107-113 and succeeds when the backend
    names an innermost span and accepts the write -- when the backend
    names no span at all it raises the [AttributeError] of [None] after the
    two queries, although the types are right.  (Instances of subclasses
    of [str] and mappings other than [dict] are left out.) *)
Theorem record_data_validates_types key value searchable st :
  (is_string key = false ->
     record_data key value searchable st =
       (Raise (ValueError "key must be a string"), st)) /\
  (is_string key = true -> exact_type key = true ->
     (if searchable then is_string_boolean_or_numeric value
      else is_mapping value) = false ->
     record_data key value searchable st =
       (Raise (ValueError (if searchable then SEARCHABLE_TYPE_MSG
                           else NON_SEARCHABLE_TYPE_MSG)), st)) /\
  (is_string key = true -> exact_type key = true ->
     exact_type value = true ->
     (if searchable then is_string_boolean_or_numeric value
      else is_mapping value) = true ->
     __assert_type__ key value searchable = Ok tt /\
     record_data key value searchable st =
       write_current_span key value searchable st /\
     (forall sp w1 w2,
        innermost_at (backend st) sp w1 ->
        backend_put sp key value searchable w1 = (Ok tt, w2) ->
        record_data key value searchable st =
          (Ok tt,
           mkState (log st ++ [ECurrentSegment; ECurrentSubsegment;
                               put_event sp key value searchable]) w2)) /\
     (forall w1 w2,
        current_segment (backend st) = (Ok None, w1) ->
        current_subsegment w1 = (Ok None, w2) ->
        record_data key value searchable st =
          (Raise (AttributeError TNoneType
                    (if searchable then "put_annotation"
                     else "put_metadata")),
           mkState (log st ++ [ECurrentSegment; ECurrentSubsegment]) w2))).
Proof.
  split; [ | split].
  - intros Hk. apply record_data_invalid.
    rewrite assert_type_table, (not_string _ Hk). reflexivity.
  - intros Hk He Hv. apply record_data_invalid.
    rewrite assert_type_table, (exact_string _ Hk He).
    apply invalid_value in Hv. destruct searchable; rewrite Hv; reflexivity.
  - intros Hk He Hx Hv.
    assert (Ha : __assert_type__ key value searchable = Ok tt).
    { rewrite assert_type_table, (exact_string _ Hk He).
      pose proof (exact_valid_value _ _ Hx Hv) as Hs.
      destruct searchable; rewrite Hs; reflexivity. }
    split; [exact Ha | ].
    split; [unfold record_data; rewrite Ha; reflexivity | ].
    split.
    + intros sp w1 w2 (segment & subsegment & w0 & Hs & Hss & Hi) Hp.
      rewrite (record_data_valid _ _ _ _ _ _ _ _ _ Ha Hs Hss Hi), Hp.
      reflexivity.
    + intros w1 w2 Hs Hss. unfold record_data. rewrite Ha.
      unfold write_current_span, bind, call. rewrite Hs.
      cbn [backend log]. rewrite Hss. cbn [innermost put].
      unfold raise. rewrite <- app_assoc. reflexivity.
Qed.

Lemma query_or_write_admits_writes : admits_writes query_or_write.
Proof. repeat split. Qed.

Lemma f_calls_app l1 l2 : f_calls (l1 ++ l2) = f_calls l1 ++ f_calls l2.
Proof.
  induction l1 as [ | ev l1 IH]; [reflexivity | ].
  destruct ev; simpl; rewrite IH; reflexivity.
Qed.

Lemma recorder_calls_app l1 l2 :
  recorder_calls (l1 ++ l2) = recorder_calls l1 ++ recorder_calls l2.
Proof.
  induction l1 as [ | ev l1 IH]; [reflexivity | ].
  destruct ev; simpl; rewrite IH; reflexivity.
Qed.

Lemma annotation_writes_app l1 l2 :
  annotation_writes (l1 ++ l2) =
  annotation_writes l1 ++ annotation_writes l2.
Proof.
  induction l1 as [ | ev l1 IH]; [reflexivity | ].
  destruct ev; simpl; rewrite IH; reflexivity.
Qed.

Lemma metadata_writes_app l1 l2 :
  metadata_writes (l1 ++ l2) = metadata_writes l1 ++ metadata_writes l2.
Proof.
  induction l1 as [ | ev l1 IH]; [reflexivity | ].
  destruct ev; simpl; rewrite IH; reflexivity.
Qed.

Lemma query_or_write_no_calls l :
  Forall query_or_write l -> f_calls l = [] /\ recorder_calls l = [].
Proof.
  induction 1 as [ | ev l Hev _ [IH1 IH2]]; [auto | ].
  destruct ev; simpl in *; try contradiction; auto.
Qed.

Lemma open_events_no_calls subsegment :
  f_calls (open_events subsegment) = [] /\
  recorder_calls (open_events subsegment) = [] /\
  annotation_writes (open_events subsegment) = [] /\
  metadata_writes (open_events subsegment) = [].
Proof. destruct subsegment; repeat split. Qed.

Lemma close_events_no_calls subsegment :
  f_calls (close_events subsegment) = [] /\
  recorder_calls (close_events subsegment) = [] /\
  annotation_writes (close_events subsegment) = [] /\
  metadata_writes (close_events subsegment) = [].
Proof. destruct subsegment; repeat split. Qed.

Lemma call_inv {A} ev (op : world -> outcome A * world) st o st' :
  call ev op st = (o, st') ->
  op (backend st) = (o, backend st') /\ log st' = log st ++ [ev].
Proof.
  unfold call. destruct (op (backend st)) as [o1 w].
  intros H. inversion H; subst. auto.
Qed.

(** The [try] suite completes exactly when its steps do. *)
Lemma steps_complete_try recorder subsegment f arg kwargs st result st1 :
  steps_complete recorder subsegment f arg kwargs st result st1 <->
  wrapper_try recorder subsegment f arg kwargs st = (Ok result, st1).
Proof.
  rewrite wrapper_try_unfold. unfold steps_complete, bind. split.
  - intros (s0 & sa & Ho & Hf & Hr). rewrite Ho, Hf, Hr. reflexivity.
  - intros H.
    destruct (open_scope subsegment st) as [[[] | e] s0] eqn:Ho;
      [ | discriminate H].
    destruct (call (ECallF arg kwargs) (f arg kwargs) s0)
      as [[r | e] sa] eqn:Hf; [ | discriminate H].
    destruct (run_recorder recorder r kwargs sa) as [[[] | e] sb] eqn:Hr;
      [ | discriminate H].
    inversion H; subst. exists s0, sa. auto.
Qed.

(** The [try] suite raises exactly when the scope opening or one of its
    steps does. *)
Lemma wrapper_try_raises recorder subsegment f arg kwargs st e st1 :
  wrapper_try recorder subsegment f arg kwargs st = (Raise e, st1) <->
  open_scope subsegment st = (Raise e, st1) \/
  step_raises recorder subsegment f arg kwargs st e st1.
Proof.
  rewrite wrapper_try_unfold. unfold bind. split.
  - intros H.
    destruct (open_scope subsegment st) as [[[] | e0] s0] eqn:Ho;
      [ | left; inversion H; subst; reflexivity].
    right.
    destruct (call (ECallF arg kwargs) (f arg kwargs) s0)
      as [[r | e0] sa] eqn:Hf;
      [ | inversion H; subst; eapply f_raises; eauto].
    unfold run_recorder in H. destruct recorder as [rf | ];
      [ | discriminate H].
    unfold bind in H.
    destruct (call (ECallRecorder r (dict_of_kwargs kwargs))
                   (rf r (dict_of_kwargs kwargs)) sa)
      as [[data | e0] sb] eqn:Hr.
    + destruct (record_extracted data sb) as [[[] | e0] sc] eqn:Hx;
        [discriminate H | ].
      inversion H; subst. eapply write_raises; eauto.
    + inversion H; subst. eapply recorder_raises; eauto.
  - intros [H | H]; [rewrite H; reflexivity | ].
    destruct H as [s0 Ho Hf | s0 r sa rf Ho Hf -> Hr
                  | s0 r sa rf data sb Ho Hf -> Hr Hx];
      rewrite Ho, Hf; [reflexivity | | ];
      unfold run_recorder, bind; rewrite Hr; [reflexivity | ].
    rewrite Hx. reflexivity.
Qed.

Lemma f_calls_none l :
  Forall (fun ev => f_calls [ev] = []) l -> f_calls l = [].
Proof.
  induction 1 as [ | ev l Hev _ IH]; [reflexivity | ].
  change (ev :: l) with ([ev] ++ l). rewrite f_calls_app, Hev, IH.
  reflexivity.
Qed.

Lemma recorder_calls_none l :
  Forall (fun ev => recorder_calls [ev] = []) l -> recorder_calls l = [].
Proof.
  induction 1 as [ | ev l Hev _ IH]; [reflexivity | ].
  change (ev :: l) with ([ev] ++ l). rewrite recorder_calls_app, Hev, IH.
  reflexivity.
Qed.

(** The log of a [try] suite that completes: the scope opening, the call
    of the wrapped function, then the recorder's work. *)
Lemma steps_complete_log recorder subsegment f arg kwargs st result st1 :
  steps_complete recorder subsegment f arg kwargs st result st1 ->
  exists work,
    log st1 = log st ++ open_events subsegment ++ ECallF arg kwargs :: work
    /\ f_calls work = [].
Proof.
  intros (s0 & sa & Ho & Hf & Hr).
  apply open_scope_log in Ho. apply call_inv in Hf as [_ Hf].
  assert (Ha : appends (fun ev => f_calls [ev] = [])
                       (run_recorder recorder result kwargs)).
  { apply run_recorder_appends; [repeat split | reflexivity]. }
  destruct (Ha _ _ _ Hr) as (work & L & F).
  exists work. split; [ | apply f_calls_none; exact F].
  rewrite L, Hf, Ho, <- !app_assoc. reflexivity.
Qed.

(** The containment path, when its two writes complete: the error marker
    and the error detail, each on the span innermost at its time. *)
Lemma __record_error___ok_inv error st1 st2 :
  __record_error__ error st1 = (Ok tt, st2) ->
  exists sm sp1 sp2 wa wb,
    record_data (PStr "instrumentation_error") (PBool true) true st1
      = (Ok tt, sm) /\
    innermost_at (backend st1) sp1 wa /\
    innermost_at (backend sm) sp2 wb /\
    log st2 = log st1 ++ error_events sp1 sp2 error.
Proof.
  unfold __record_error__, bind. intros H.
  destruct (record_data (PStr "instrumentation_error") (PBool true) true st1)
    as [[[] | e] sm] eqn:H1; [ | discriminate H].
  destruct (record_data_ok_inv _ _ _ _ _ H1)
    as (_ & sp1 & wa & I1 & _ & L1).
  destruct (exn_repr_raises error) as [x | ]; [discriminate H | ].
  destruct (record_data_ok_inv _ _ _ _ _ H)
    as (_ & sp2 & wb & I2 & _ & L2).
  exists sm, sp1, sp2, wa, wb. repeat split; auto.
  rewrite L2, L1, <- app_assoc. reflexivity.
Qed.

(** C9, as amended.  When the scope opening, the wrapped function, the
    recorder and all data writes complete without raising, and the scope
    closing (if a scope name was given) completes too, the wrapped call
    returns exactly the value the wrapped function returned; the wrapped
    function was called once, with the positional and keyword arguments of
    the wrapped call. *)
Theorem wrapper_returns_result recorder subsegment f arg kwargs st result
    st1 st2 :
  steps_complete recorder subsegment f arg kwargs st result st1 ->
  close_scope subsegment st1 = (Ok tt, st2) ->
  wrapper recorder subsegment f arg kwargs st = (Ok result, st2) /\
  f_calls (new_events st st2) = [(arg, kwargs)].
Proof.
  intros Hs Hc. split.
  - rewrite wrapper_stages.
    apply steps_complete_try in Hs. rewrite Hs.
    unfold except_stage, finally_stage. rewrite Hc. reflexivity.
  - destruct (steps_complete_log _ _ _ _ _ _ _ _ Hs) as (work & L & Fw).
    apply close_scope_log in Hc.
    rewrite (new_events_app st st2
               (open_events subsegment ++ (ECallF arg kwargs :: work)
                  ++ close_events subsegment)).
    + rewrite !f_calls_app. simpl. rewrite Fw.
      destruct (open_events_no_calls subsegment) as (-> & _).
      destruct (close_events_no_calls subsegment) as (-> & _).
      reflexivity.
    + rewrite Hc, L, <- !app_assoc. reflexivity.
Qed.

(** C1, as amended.  When the wrapped function, the recorder or a data
    write raises an instance of [Exception], and the two writes of the
    containment path and the scope closing (if a scope name was given)
    themselves complete, the exception does not reach the caller: the
    wrapped call returns [None] (not the result of the wrapped function),
    having issued after the failure exactly the indexed write
    [('instrumentation_error', True)] and the structured write
    [('instrumentation_error_detail', {'message': repr})], each on the span
    innermost at its time, and then the scope closing. *)
Theorem wrapper_contains_error recorder subsegment f arg kwargs st e
    st1 st2 st3 :
  step_raises recorder subsegment f arg kwargs st e st1 ->
  exn_is_Exception e = true ->
  __record_error__ e st1 = (Ok tt, st2) ->
  close_scope subsegment st2 = (Ok tt, st3) ->
  wrapper recorder subsegment f arg kwargs st = (Ok PNone, st3) /\
  exists sm sp1 sp2 wa wb,
    record_data (PStr "instrumentation_error") (PBool true) true st1
      = (Ok tt, sm) /\
    innermost_at (backend st1) sp1 wa /\
    innermost_at (backend sm) sp2 wb /\
    new_events st1 st3 = error_events sp1 sp2 e ++ close_events subsegment.
Proof.
  intros Hs He Hr Hc. split.
  - rewrite wrapper_stages.
    assert (Ht : wrapper_try recorder subsegment f arg kwargs st
                 = (Raise e, st1))
      by (apply wrapper_try_raises; right; exact Hs).
    rewrite Ht. unfold except_stage, finally_stage. rewrite He.
    unfold wrapper_except, bind. rewrite Hr.
    unfold ret. rewrite Hc. reflexivity.
  - destruct (__record_error___ok_inv _ _ _ Hr)
      as (sm & sp1 & sp2 & wa & wb & H1 & I1 & I2 & L).
    exists sm, sp1, sp2, wa, wb. repeat split; auto.
    apply new_events_app. apply close_scope_log in Hc.
    rewrite Hc, L, <- app_assoc. reflexivity.
Qed.

(** C3, as amended.  An exception escapes a wrapped call in three cases
    only: the scope closing raised it; or the [try] suite (scope opening,
    wrapped function, recorder, data writes) raised an instance of
    [Exception] and the containment path raised it (the error-marker
    write, the [__repr__] of the error or the error-detail write); or the [try] suite raised it and it is not
    an instance of [Exception].  Every other error is contained. *)
Theorem wrapper_escapes recorder subsegment f arg kwargs st x st' :
  wrapper recorder subsegment f arg kwargs st = (Raise x, st') ->
  (exists st2, close_scope subsegment st2 = (Raise x, st')) \/
  (exists e st1 st2,
     wrapper_try recorder subsegment f arg kwargs st = (Raise e, st1) /\
     exn_is_Exception e = true /\
     __record_error__ e st1 = (Raise x, st2)) \/
  (exists st1,
     wrapper_try recorder subsegment f arg kwargs st = (Raise x, st1) /\
     exn_is_Exception x = false).
Proof.
  rewrite wrapper_stages. unfold except_stage, finally_stage. intros H.
  destruct (wrapper_try recorder subsegment f arg kwargs st)
    as [[r | e] st1] eqn:Ht.
  - destruct (close_scope subsegment st1) as [[[] | e] st3] eqn:Hc;
      inversion H; subst. left. exists st1. exact Hc.
  - destruct (exn_is_Exception e) eqn:He.
    + unfold wrapper_except, bind in H.
      destruct (__record_error__ e st1) as [[[] | e2] st2] eqn:Hr.
      * unfold ret in H.
        destruct (close_scope subsegment st2) as [[[] | e3] st3] eqn:Hc;
          inversion H; subst. left. exists st2. exact Hc.
      * destruct (close_scope subsegment st2) as [[[] | e3] st3] eqn:Hc;
          inversion H; subst.
        -- right. left. exists e, st1, st2. auto.
        -- left. exists st2. exact Hc.
    + destruct (close_scope subsegment st1) as [[[] | e3] st3] eqn:Hc;
        inversion H; subst.
      * right. right. exists st1. auto.
      * left. exists st1. exact Hc.
Qed.

(** The writes of a loop that completed: one per item, in order, all of
    the kind asked for. *)
Lemma record_items_ok_log items searchable st st' :
  record_items items searchable st = (Ok tt, st') ->
  exists writes,
    log st' = log st ++ writes /\
    annotation_writes writes = (if searchable then items else []) /\
    metadata_writes writes = (if searchable then [] else items).
Proof.
  revert st. induction items as [ | [key value] rest IH]; intros st H.
  - inversion H; subst. exists []. rewrite app_nil_r.
    destruct searchable; auto.
  - simpl in H. unfold bind in H.
    destruct (record_data key value searchable st) as [[[] | e] sm] eqn:H1;
      [ | discriminate H].
    destruct (record_data_ok_inv _ _ _ _ _ H1) as (_ & sp & w & _ & _ & L1).
    destruct (IH _ H) as (writes & L & Ha & Hm).
    exists ([ECurrentSegment; ECurrentSubsegment;
             put_event sp key value searchable] ++ writes).
    split; [rewrite L, L1, <- app_assoc; reflexivity | ].
    rewrite annotation_writes_app, metadata_writes_app, Ha, Hm.
    destruct searchable; auto.
Qed.

(** Recording a Record of which one half is populated is the loop over
    that half. *)
Lemma record_one_half searchable items st :
  record_extracted (one_half searchable items) st =
    match record_items items searchable st with
    | (Ok _, st') => (Ok tt, st')
    | (Raise e, st') => (Raise e, st')
    end.
Proof.
  destruct searchable; simpl; unfold bind, ret.
  - destruct (record_items items true st) as [[[] | e] st']; reflexivity.
  - destruct (record_items items false st) as [[[] | e] st']; reflexivity.
Qed.

(** C6, as amended.  When the wrapped function returns, the recorder
    returns a Record of which only the searchable half is populated, and
    the recording of that half completes -- every entry passes the
    validation and no backend call raises --, the wrapped call issues one
    indexed write per entry of that half, in order, and no structured
    write.  Symmetrically with only the non-searchable half populated: one
    structured write per entry and no indexed write.  (A dict has one
    entry per key.) *)
Theorem wrapper_records_one_half r subsegment f arg kwargs st s0 result sa
    searchable items sb sc :
  open_scope subsegment st = (Ok tt, s0) ->
  call (ECallF arg kwargs) (f arg kwargs) s0 = (Ok result, sa) ->
  call (ECallRecorder result (dict_of_kwargs kwargs))
       (r result (dict_of_kwargs kwargs)) sa
    = (Ok (one_half searchable items), sb) ->
  record_items items searchable sb = (Ok tt, sc) ->
  let evs :=
    new_events st (snd (wrapper (Some r) subsegment f arg kwargs st)) in
  (if searchable then annotation_writes evs else metadata_writes evs)
    = items /\
  (if searchable then metadata_writes evs else annotation_writes evs) = [].
Proof.
  intros Ho Hf Hr Hw evs. subst evs.
  assert (Ht : wrapper_try (Some r) subsegment f arg kwargs st
               = (Ok result, sc)).
  { apply steps_complete_try. exists s0, sa. repeat split; auto.
    unfold run_recorder, bind. rewrite Hr, record_one_half, Hw.
    reflexivity. }
  rewrite wrapper_stages, Ht. unfold except_stage.
  destruct (record_items_ok_log _ _ _ _ Hw) as (writes & L & Ha & Hm).
  apply open_scope_log in Ho.
  apply call_inv in Hf as [_ Hf]. apply call_inv in Hr as [_ Hr].
  destruct (finally_stage subsegment (Ok result) sc) as [o3 st3] eqn:Hc.
  apply finally_stage_log in Hc.
  assert (Hn : new_events st st3 =
               open_events subsegment
               ++ [ECallF arg kwargs;
                   ECallRecorder result (dict_of_kwargs kwargs)]
               ++ writes ++ close_events subsegment).
  { apply new_events_app.
    rewrite Hc, L, Hr, Hf, Ho, <- !app_assoc. reflexivity. }
  cbn [snd]. rewrite Hn.
  rewrite !annotation_writes_app, !metadata_writes_app, Ha, Hm.
  destruct (open_events_no_calls subsegment) as (_ & _ & -> & ->).
  destruct (close_events_no_calls subsegment) as (_ & _ & -> & ->).
  simpl. rewrite !app_nil_r. destruct searchable; auto.
Qed.

Lemma run_recorder_log recorder result kwargs st o st' :
  run_recorder recorder result kwargs st = (o, st') ->
  exists work,
    log st' = log st ++ recorder_events recorder result kwargs ++ work /\
    Forall query_or_write work /\
    (recorder = None -> work = []).
Proof.
  destruct recorder as [r | ]; simpl; intros H.
  - unfold bind in H.
    destruct (call (ECallRecorder result (dict_of_kwargs kwargs))
                   (r result (dict_of_kwargs kwargs)) st)
      as [[data | e] sb] eqn:Hr; apply call_inv in Hr as [_ Hr].
    + destruct (record_extracted_appends query_or_write data
                  query_or_write_admits_writes _ _ _ H) as (work & L & F).
      exists work. rewrite L, Hr, <- app_assoc.
      repeat split; auto. discriminate.
    + inversion H; subst. exists []. rewrite Hr.
      repeat split; auto.
  - inversion H; subst. exists []. rewrite app_nil_r. auto.
Qed.

(** The log of a wrapped call whose wrapped function returned: scope
    opening, the call of the wrapped function, the call of the recorder if
    any, then queries and writes only, then the scope closing. *)
Lemma wrapper_after_f_log recorder subsegment f arg kwargs st s0 result sa :
  open_scope subsegment st = (Ok tt, s0) ->
  call (ECallF arg kwargs) (f arg kwargs) s0 = (Ok result, sa) ->
  exists work,
    new_events st (snd (wrapper recorder subsegment f arg kwargs st)) =
      open_events subsegment
      ++ ECallF arg kwargs :: recorder_events recorder result kwargs
      ++ work ++ close_events subsegment /\
    Forall query_or_write work /\
    (recorder = None -> work = []).
Proof.
  intros Ho Hf.
  destruct (run_recorder recorder result kwargs sa) as [o1 st1] eqn:Hr.
  assert (Ht : exists o1',
             wrapper_try recorder subsegment f arg kwargs st = (o1', st1)
             /\ (recorder = None -> o1' = Ok result)).
  { rewrite wrapper_try_unfold. unfold bind. rewrite Ho, Hf, Hr.
    destruct o1 as [[] | e]; eexists; split; try reflexivity.
    intros ->. discriminate Hr. }
  destruct Ht as (o1' & Ht & Hn).
  destruct (run_recorder_log _ _ _ _ _ _ Hr) as (work1 & L1 & F1 & N1).
  apply open_scope_log in Ho. apply call_inv in Hf as [_ Hf].
  rewrite wrapper_stages, Ht.
  destruct (except_stage o1' st1) as [o2 st2] eqn:Hx.
  destruct (except_stage_log query_or_write _ _ _ _
              (fun e => wrapper_except_appends _ e
                          query_or_write_admits_writes) Hx)
    as (work2 & L2 & F2).
  destruct (finally_stage subsegment o2 st2) as [o3 st3] eqn:Hc.
  apply finally_stage_log in Hc.
  exists (work1 ++ work2). split; [ | split; [apply Forall_app; auto | ]].
  - cbn [snd]. apply new_events_app.
    rewrite Hc, L2, L1, Hf, Ho, <- !app_assoc. reflexivity.
  - intros HN. rewrite (N1 HN). rewrite (Hn HN) in Hx.
    inversion Hx; subst. simpl.
    apply app_inv_head with (l := log st2).
    rewrite <- L2, app_nil_r. reflexivity.
Qed.

(** The call of a truthy recorder, when the wrapped function returns: one
    call, with the result and the dict of the keyword arguments. *)
Lemma recorder_call_log r subsegment f arg kwargs st s0 result sa :
  open_scope subsegment st = (Ok tt, s0) ->
  call (ECallF arg kwargs) (f arg kwargs) s0 = (Ok result, sa) ->
  recorder_calls
    (new_events st (snd (wrapper (Some r) subsegment f arg kwargs st)))
    = [(result, dict_of_kwargs kwargs)].
Proof.
  intros Ho Hf.
  destruct (wrapper_after_f_log (Some r) _ _ _ _ _ _ _ _ Ho Hf)
    as (work & -> & F & _).
  change (ECallF arg kwargs :: ?l) with ([ECallF arg kwargs] ++ l).
  rewrite !recorder_calls_app.
  destruct (open_events_no_calls subsegment) as (_ & -> & _).
  destruct (close_events_no_calls subsegment) as (_ & -> & _).
  destruct (query_or_write_no_calls _ F) as (_ & ->).
  reflexivity.
Qed.

(** C7, a defect of the code.  The docstring of [record] (lines 50-53)
    promises the recorder the options dictionary that contains the method
    arguments, and line 68 passes [kwargs] only.  For every call made with
    positional arguments and no keyword argument -- [dispatch('m1')] --,
    when the wrapped function returns, the truthy recorder is called once
    with the result and the empty dict: what it receives holds none of the
    arguments, and is no mapping of the inputs of the call. *)
Theorem recorder_misses_positional_arguments r subsegment f arg st s0
    result sa :
  arg <> [] ->
  open_scope subsegment st = (Ok tt, s0) ->
  call (ECallF arg []) (f arg []) s0 = (Ok result, sa) ->
  recorder_calls
    (new_events st (snd (wrapper (Some r) subsegment f arg [] st)))
    = [(result, PDict [])] /\
  ~ mapping_of_inputs (PDict []) arg [].
Proof.
  intros Ha Ho Hf. split.
  - exact (recorder_call_log r subsegment f arg [] st s0 result sa Ho Hf).
  - intros (items & Hi & _ & Hp). injection Hi as <-.
    destruct arg as [ | v rest]; [contradiction Ha; reflexivity | ].
    exact (Hp v (or_introl eq_refl)).
Qed.

Lemma error_writes_only e :
  appends no_data_write (wrapper_except e).
Proof.
  unfold wrapper_except, __record_error__.
  apply appends_bind; [ | intros _; apply appends_ret].
  apply appends_bind;
    [ | intros _; destruct (exn_repr_raises e); [apply appends_raise | ]];
    (eapply appends_weaken; [ | apply record_data_appends]);
    intros ev [-> | [-> | [sp ->]]]; simpl; eauto.
Qed.

(** C8.  First, when the recorder returns a value that is not a Record,
    the [try] suite completes (nothing is raised for that reason) and the
    wrapped call makes no write: its log is the scope opening, the call of
    the wrapped function, the call of the recorder and the scope closing.
    Second, a wrapped call without a recorder writes no data: between the
    opening and the closing of its scope (both made when a name is given)
    the only writes that can occur are the two of the containment path,
    and when the wrapped function returns there is no write at all.
    Third, the scope calls are made on the backend: without a recorder and
    with a name, when [begin_subsegment] and the wrapped function return,
    the wrapped function runs on the state [begin_subsegment] left,
    [end_subsegment] is called on the state the function left, and the
    call returns the result unless [end_subsegment] raises.  Last, with
    or without a recorder the backend is left in the state that the
    logged calls produce: nothing else touches it. *)
Theorem wrapper_without_record subsegment f arg kwargs st :
  (forall r s0 result sa data sb,
     open_scope subsegment st = (Ok tt, s0) ->
     call (ECallF arg kwargs) (f arg kwargs) s0 = (Ok result, sa) ->
     call (ECallRecorder result (dict_of_kwargs kwargs))
          (r result (dict_of_kwargs kwargs)) sa = (Ok data, sb) ->
     is_record data = false ->
     wrapper_try (Some r) subsegment f arg kwargs st = (Ok result, sb) /\
     new_events st (snd (wrapper (Some r) subsegment f arg kwargs st)) =
       open_events subsegment
       ++ [ECallF arg kwargs; ECallRecorder result (dict_of_kwargs kwargs)]
       ++ close_events subsegment) /\
  (exists mid,
     new_events st (snd (wrapper None subsegment f arg kwargs st)) =
       open_events subsegment ++ mid ++ close_events subsegment /\
     Forall no_data_write mid) /\
  (forall s0 result sa,
     open_scope subsegment st = (Ok tt, s0) ->
     call (ECallF arg kwargs) (f arg kwargs) s0 = (Ok result, sa) ->
     new_events st (snd (wrapper None subsegment f arg kwargs st)) =
       open_events subsegment ++ [ECallF arg kwargs]
       ++ close_events subsegment) /\
  (forall name w0 result w1,
     subsegment = Some name ->
     begin_subsegment name (backend st) = (Ok tt, w0) ->
     f arg kwargs w0 = (Ok result, w1) ->
     wrapper None subsegment f arg kwargs st =
       (match fst (end_subsegment w1) with
        | Ok _ => Ok result
        | Raise e => Raise e
        end,
        mkState (log st ++ [EBegin name; ECallF arg kwargs; EEnd])
                (snd (end_subsegment w1)))) /\
  (forall recorder,
     backend (snd (wrapper recorder subsegment f arg kwargs st)) =
       replay f recorder
         (new_events st (snd (wrapper recorder subsegment f arg kwargs st)))
         (backend st)).
Proof.
  split; [ | split; [ | split; [ | split]]].
  - intros r s0 result sa data sb Ho Hf Hr Hd.
    assert (Hx : record_extracted data sb = (Ok tt, sb))
      by (destruct data; try discriminate Hd; reflexivity).
    assert (Ht : wrapper_try (Some r) subsegment f arg kwargs st
                 = (Ok result, sb)).
    { apply steps_complete_try. exists s0, sa. repeat split; auto.
      unfold run_recorder, bind. rewrite Hr, Hx. reflexivity. }
    split; [exact Ht | ].
    rewrite wrapper_stages, Ht. unfold except_stage.
    destruct (finally_stage subsegment (Ok result) sb) as [o3 st3] eqn:Hc.
    apply finally_stage_log in Hc. cbn [snd].
    apply new_events_app.
    apply open_scope_log in Ho.
    apply call_inv in Hf as [_ Hf]. apply call_inv in Hr as [_ Hr].
    rewrite Hc, Hr, Hf, Ho, <- !app_assoc. reflexivity.
  - destruct (wrapper_log_of no_data_write None subsegment f arg kwargs st)
      as (mid & L & F).
    + apply appends_bind; [apply appends_call; exact I | intros result].
      apply appends_bind; [apply appends_ret | intros _; apply appends_ret].
    + exact error_writes_only.
    + exists mid. split; [apply new_events_app; exact L | exact F].
  - intros s0 result sa Ho Hf.
    destruct (wrapper_after_f_log None _ _ _ _ _ _ _ _ Ho Hf)
      as (work & -> & _ & N).
    rewrite (N eq_refl). reflexivity.
  - intros name w0 result w1 -> Hb Hf.
    unfold wrapper, try_finally, try_except, wrapper_try, open_scope,
      close_scope, run_recorder, bind, call, ret.
    rewrite Hb. cbn [backend log]. rewrite Hf. cbn [backend log].
    destruct (end_subsegment w1) as [[[] | e] w2]; cbn [fst snd];
      rewrite <- !app_assoc; reflexivity.
  - intros recorder. apply wrapper_backend.
Qed.

End Properties.

(** ** The tests of the repository, replayed *)

(** [test_record_decorator_segment]. *)
Example replay_decorator_segment :
  let run := wrapper (Some Run.recorder) None Run.dispatch [] Run.message
                     (Run.state0 Mock.no_fault) in
  fst run = Ok (PTuple [PInt 0; PStr "foo"; PStr "bar"]) /\
  annotation_writes (log (snd run))
    = [(PStr "id", PStr "m1"); (PStr "errors", PInt 0)] /\
  metadata_writes (log (snd run))
    = [(PStr "kpi",
        PDict [(PStr "type", PStr "foo"); (PStr "value", PStr "bar")])].
Proof. repeat split. Qed.

(** [test_handle_decorator_error]. *)
Example replay_decorator_error :
  let run := wrapper (Some (Run.raising Run.ZeroDivisionError))
                     (Some "ss1"%string) Run.dispatch [] Run.message
                     (Run.state0 Mock.no_fault) in
  fst run = Ok PNone /\
  log (snd run)
    = [EBegin "ss1"; ECallF [] Run.message;
       ECallRecorder (PTuple [PInt 0; PStr "foo"; PStr "bar"])
                     (PDict [(PStr "message", PStr "m1")]);
       ECurrentSegment; ECurrentSubsegment;
       EPutAnnotation 1 (PStr "instrumentation_error") (PBool true);
       ECurrentSegment; ECurrentSubsegment;
       EPutMetadata 1 (PStr "instrumentation_error_detail")
         (PDict [(PStr "message", PStr "ZeroDivisionError('omg!')")]);
       EEnd].
Proof. repeat split. Qed.

(** [test_record_decorator_no_recorder_subsegment]. *)
Example replay_no_recorder_subsegment :
  let run := wrapper None (Some "ss1"%string) Run.dispatch [] Run.message
                     (Run.state0 Mock.no_fault) in
  fst run = Ok (PTuple [PInt 0; PStr "foo"; PStr "bar"]) /\
  log (snd run) = [EBegin "ss1"; ECallF [] Run.message; EEnd].
Proof. repeat split. Qed.

(** The four calls of the validation examples. *)
Example replay_validation :
  fst (record_data (PStr "k") Run.pi_ish true (Run.state0 Mock.no_fault))
    = Ok tt /\
  fst (record_data (PStr "k") (PDict []) true (Run.state0 Mock.no_fault))
    = Raise (ValueError SEARCHABLE_TYPE_MSG) /\
  fst (record_data (PStr "k") (PStr "x") false (Run.state0 Mock.no_fault))
    = Raise (ValueError NON_SEARCHABLE_TYPE_MSG) /\
  fst (record_data (PInt 123) (PStr "x") true (Run.state0 Mock.no_fault))
    = Raise (ValueError "key must be a string").
Proof. repeat split. Qed.

(** An exception of the wrapped function itself is swallowed: no recorder,
    the function raises [ZeroDivisionError], the caller receives [None]. *)
Example replay_f_raises :
  let run := wrapper None None (Run.failing Run.ZeroDivisionError) []
                     Run.message (Run.state0 Mock.no_fault) in
  fst run = Ok PNone /\
  annotation_writes (log (snd run))
    = [(PStr "instrumentation_error", PBool true)] /\
  metadata_writes (log (snd run))
    = [(PStr "instrumentation_error_detail",
        PDict [(PStr "message", PStr "ZeroDivisionError('omg!')")])].
Proof. repeat split. Qed.

(** [except Exception] does not catch a [KeyboardInterrupt]: it reaches the
    caller, and the scope is closed on the way. *)
Example replay_keyboard_interrupt :
  let run := wrapper None (Some "ss1"%string)
                     (Run.failing Run.KeyboardInterrupt) [] Run.message
                     (Run.state0 Mock.no_fault) in
  fst run = Raise Run.KeyboardInterrupt /\
  log (snd run) = [EBegin "ss1"; ECallF [] Run.message; EEnd].
Proof. repeat split. Qed.

(** The recorder raises and [end_subsegment] raises: the containment path
    completes, and the exception of the scope closing reaches the
    caller. *)
Example replay_scope_close_raises :
  let run := wrapper (Some (Run.raising Run.ZeroDivisionError))
                     (Some "ss1"%string) Run.dispatch [] Run.message
                     (Run.state0 Run.end_down) in
  fst run = Raise Run.RuntimeError /\
  annotation_writes (log (snd run))
    = [(PStr "instrumentation_error", PBool true)].
Proof. repeat split. Qed.

(** The scope on the backend: while the recorder raises, the subsegment
    [ss1] receives the two writes of the containment path; afterwards it
    is ended and no subsegment is open. *)
Example replay_scope_on_backend :
  let run := wrapper (Some (Run.raising Run.ZeroDivisionError))
                     (Some "ss1"%string) Run.dispatch [] Run.message
                     (Run.state0 Mock.no_fault) in
  Mock.subsegments (backend (snd run)) = [] /\
  Mock.ended (backend (snd run))
    = [Mock.mkSpan "ss1"
         [(PStr "instrumentation_error", PBool true)]
         [(PStr "instrumentation_error_detail",
           error_detail Run.ZeroDivisionError)]] /\
  Mock.segment (backend (snd run)) = Some (Mock.mkSpan "segment" [] []).
Proof. repeat split. Qed.

(** A recorder that is falsy is never called. *)
Example replay_falsy_recorder :
  let run := wrapper (recorder_argument false Run.recorder) None
                     Run.dispatch [] Run.message
                     (Run.state0 Mock.no_fault) in
  fst run = Ok (PTuple [PInt 0; PStr "foo"; PStr "bar"]) /\
  log (snd run) = [ECallF [] Run.message].
Proof. repeat split. Qed.

(** A half that is an [OrderedDict] is recorded entry by entry, while an
    [OrderedDict] as a non-searchable value is refused by the test of
    line 127. *)
Example replay_ordered_dict :
  let half := PMapping "OrderedDict" [(PStr "id", PStr "m1")] in
  let run := wrapper (Some (Run.returning (PRecord half PNone))) None
                     Run.dispatch [] [] (Run.state0 Mock.no_fault) in
  fst run = Ok (PTuple [PInt 0; PStr "foo"; PStr "bar"]) /\
  annotation_writes (log (snd run)) = [(PStr "id", PStr "m1")] /\
  fst (record_data (PStr "k") half false (Run.state0 Mock.no_fault))
    = Raise (ValueError NON_SEARCHABLE_TYPE_MSG).
Proof. repeat split. Qed.

(** The [__repr__] of the caught exception raises: the error marker is
    written, no detail is, and the exception of [__repr__] reaches the
    caller although the backend works. *)
Example replay_repr_raises :
  let run := wrapper None None (Run.failing Run.Unprintable) [] []
                     (Run.state0 Mock.no_fault) in
  fst run = Raise Run.RuntimeError /\
  annotation_writes (log (snd run))
    = [(PStr "instrumentation_error", PBool true)] /\
  metadata_writes (log (snd run)) = [].
Proof. repeat split. Qed.

(** ** Recording is not atomic *)

(** C10.  On the recording backend, for a Record whose searchable half
    holds a valid entry followed by an entry whose value is of no
    searchable type: the wrapped call returns [None] through the
    containment path; the indexed write of the valid entry is issued
    before the validation error, ahead of the error marker, and no write
    is issued for the invalid entry; the annotation of the valid entry is
    still on the segment afterwards, next to the error marker -- the
    backend is not left as it was. *)
Theorem recording_not_atomic (k1 k2 : string) (v bad : pyval) :
  spec_string_boolean_or_numeric v = true ->
  spec_string_boolean_or_numeric bad = false ->
  let record := PRecord (PDict [(PStr k1, v); (PStr k2, bad)]) PNone in
  let st := Run.state0 Mock.no_fault in
  let run := wrapper (Some (Run.returning record)) None Run.dispatch [] []
                     st in
  fst run = Ok PNone /\
  annotation_writes (log (snd run))
    = [(PStr k1, v); (PStr "instrumentation_error", PBool true)] /\
  metadata_writes (log (snd run))
    = [(PStr "instrumentation_error_detail",
        error_detail (ValueError SEARCHABLE_TYPE_MSG))] /\
  Mock.segment (backend (snd run))
    = Some (Mock.mkSpan "segment"
              [(PStr k1, v); (PStr "instrumentation_error", PBool true)]
              [(PStr "instrumentation_error_detail",
                error_detail (ValueError SEARCHABLE_TYPE_MSG))]) /\
  backend (snd run) <> backend st.
Proof.
  intros Hv Hb record st run.
  assert (H1 : __assert_type__ (PStr k1) v true = Ok tt)
    by (rewrite assert_type_table, Hv; reflexivity).
  assert (H2 : __assert_type__ (PStr k2) bad true
               = Raise (ValueError SEARCHABLE_TYPE_MSG))
    by (rewrite assert_type_table, Hb; reflexivity).
  assert (Hrun : run =
    (Ok PNone,
     mkState
       [ECallF [] [];
        ECallRecorder (PTuple [PInt 0; PStr "foo"; PStr "bar"]) (PDict []);
        ECurrentSegment; ECurrentSubsegment; EPutAnnotation 0 (PStr k1) v;
        ECurrentSegment; ECurrentSubsegment;
        EPutAnnotation 0 (PStr "instrumentation_error") (PBool true);
        ECurrentSegment; ECurrentSubsegment;
        EPutMetadata 0 (PStr "instrumentation_error_detail")
          (error_detail (ValueError SEARCHABLE_TYPE_MSG))]
       (Mock.mkWorld
          (Some (Mock.mkSpan "segment"
                   [(PStr k1, v);
                    (PStr "instrumentation_error", PBool true)]
                   [(PStr "instrumentation_error_detail",
                     error_detail (ValueError SEARCHABLE_TYPE_MSG))]))
          [] [] Mock.no_fault))).
  { subst run record st.
    cbv -[__assert_type__ error_detail ValueError SEARCHABLE_TYPE_MSG].
    rewrite H1.
    cbv -[__assert_type__ error_detail ValueError SEARCHABLE_TYPE_MSG].
    rewrite H2. reflexivity. }
  rewrite Hrun. repeat split. discriminate.
Qed.

(** ** Instances on the recording backend *)

Lemma recording_not_atomic_witness :
  fst (wrapper
         (Some (Run.returning
                  (PRecord (PDict [(PStr "id", PStr "m1");
                                   (PStr "kpi", PDict [])]) PNone)))
         None Run.dispatch [] [] (Run.state0 Mock.no_fault)) = Ok PNone /\
  Mock.segment
    (backend
       (snd (wrapper
               (Some (Run.returning
                        (PRecord (PDict [(PStr "id", PStr "m1");
                                         (PStr "kpi", PDict [])]) PNone)))
               None Run.dispatch [] [] (Run.state0 Mock.no_fault))))
    = Some (Mock.mkSpan "segment"
              [(PStr "id", PStr "m1");
               (PStr "instrumentation_error", PBool true)]
              [(PStr "instrumentation_error_detail",
                error_detail (ValueError SEARCHABLE_TYPE_MSG))]).
Proof.
  pose proof (recording_not_atomic "id" "kpi" (PStr "m1") (PDict [])
                eq_refl eq_refl) as (H1 & _ & _ & H2 & _).
  split; [exact H1 | exact H2].
Defined.

(** [test_record_searchable_data_subsegment]: with the subsegment [ss1]
    open the annotation goes to it (span 1), not to the segment. *)
Lemma record_data_targets_innermost_witness :
  record_data (PStr "k1") (PStr "v1") true Run.in_subsegment =
    (fst (backend_put 1 (PStr "k1") (PStr "v1") true
            (backend Run.in_subsegment)),
     mkState [ECurrentSegment; ECurrentSubsegment;
              EPutAnnotation 1 (PStr "k1") (PStr "v1")]
             (snd (backend_put 1 (PStr "k1") (PStr "v1") true
                     (backend Run.in_subsegment)))).
Proof.
  exact (proj1 (record_data_targets_innermost
                  (PStr "k1") (PStr "v1") true Run.in_subsegment
                  (Some 0) (Some 1) (backend Run.in_subsegment)
                  (backend Run.in_subsegment) eq_refl eq_refl eq_refl)
               1 eq_refl).
Defined.

(** The four calls of the validation examples: [3.14] is accepted,
    a dict as searchable value, a string as non-searchable value and the
    key [123] are refused. *)
Lemma record_data_validates_types_witness :
  record_data (PStr "k") Run.pi_ish true (Run.state0 Mock.no_fault) =
    (Ok tt,
     mkState [ECurrentSegment; ECurrentSubsegment;
              EPutAnnotation 0 (PStr "k") Run.pi_ish]
             (Mock.mkWorld
                (Some (Mock.mkSpan "segment" [(PStr "k", Run.pi_ish)] []))
                [] [] Mock.no_fault)) /\
  record_data (PStr "k") (PDict []) true (Run.state0 Mock.no_fault) =
    (Raise (ValueError SEARCHABLE_TYPE_MSG), Run.state0 Mock.no_fault) /\
  record_data (PStr "k") (PStr "x") false (Run.state0 Mock.no_fault) =
    (Raise (ValueError NON_SEARCHABLE_TYPE_MSG), Run.state0 Mock.no_fault) /\
  record_data (PInt 123) (PStr "x") true (Run.state0 Mock.no_fault) =
    (Raise (ValueError "key must be a string"), Run.state0 Mock.no_fault).
Proof.
  split; [ | split; [ | split]].
  - destruct (proj2 (proj2 (record_data_validates_types
                              (PStr "k") Run.pi_ish true
                              (Run.state0 Mock.no_fault)))
                eq_refl eq_refl eq_refl eq_refl) as (_ & _ & H & _).
    apply (H 0 (Mock.fresh Mock.no_fault)).
    + exists (Some 0), None, (Mock.fresh Mock.no_fault).
      split; [reflexivity | split; reflexivity].
    + reflexivity.
  - exact (proj1 (proj2 (record_data_validates_types
                           (PStr "k") (PDict []) true
                           (Run.state0 Mock.no_fault)))
                 eq_refl eq_refl eq_refl).
  - exact (proj1 (proj2 (record_data_validates_types
                           (PStr "k") (PStr "x") false
                           (Run.state0 Mock.no_fault)))
                 eq_refl eq_refl eq_refl).
  - exact (proj1 (record_data_validates_types
                    (PInt 123) (PStr "x") true
                    (Run.state0 Mock.no_fault))
                 eq_refl).
Defined.

(** [test_record_decorator_subsegment]: the result comes back. *)
Lemma wrapper_returns_result_witness :
  exists st2,
    wrapper (Some Run.recorder) (Some "ss1"%string) Run.dispatch []
            Run.message (Run.state0 Mock.no_fault)
      = (Ok (PTuple [PInt 0; PStr "foo"; PStr "bar"]), st2) /\
    f_calls (new_events (Run.state0 Mock.no_fault) st2)
      = [([], Run.message)].
Proof.
  eexists.
  eapply (wrapper_returns_result (Some Run.recorder) (Some "ss1"%string)).
  - eexists. eexists. repeat split; reflexivity.
  - reflexivity.
Defined.

(** [test_handle_decorator_error]: the recorder raises, nothing reaches
    the caller. *)
Lemma wrapper_contains_error_witness :
  exists st3,
    wrapper (Some (Run.raising Run.ZeroDivisionError)) (Some "ss1"%string)
            Run.dispatch [] Run.message
            (Run.state0 Mock.no_fault) = (Ok PNone, st3).
Proof.
  pose proof (wrapper_contains_error
                (Some (Run.raising Run.ZeroDivisionError))
                (Some "ss1"%string) Run.dispatch []
                Run.message
                (Run.state0 Mock.no_fault) Run.ZeroDivisionError
                _ _ _
                ltac:(eapply recorder_raises; reflexivity)
                eq_refl eq_refl eq_refl) as [H _].
  eexists. exact H.
Defined.

(** The scope closing raises: its exception reaches the caller, by the
    first of the three cases. *)
Lemma wrapper_escapes_witness :
  exists st2 st',
    wrapper None (Some "ss1"%string) Run.dispatch [] []
            (Run.state0 Run.end_down) = (Raise Run.RuntimeError, st') /\
    close_scope (Some "ss1"%string) st2 = (Raise Run.RuntimeError, st').
Proof.
  destruct (wrapper_escapes None (Some "ss1"%string) Run.dispatch [] []
              (Run.state0 Run.end_down) Run.RuntimeError _ eq_refl)
    as [[st2 H] | [(e & st1 & st2 & H & _) | (st1 & H & _)]].
  - exists st2. eexists. split; [reflexivity | exact H].
  - discriminate H.
  - discriminate H.
Defined.

(** A Record with the searchable half only: two annotations, no
    metadata. *)
Lemma wrapper_records_one_half_witness :
  annotation_writes
    (new_events (Run.state0 Mock.no_fault)
       (snd (wrapper
               (Some (Run.returning
                        (one_half true [(PStr "id", PStr "m1");
                                        (PStr "errors", PInt 0)])))
               None Run.dispatch [] [] (Run.state0 Mock.no_fault))))
    = [(PStr "id", PStr "m1"); (PStr "errors", PInt 0)] /\
  metadata_writes
    (new_events (Run.state0 Mock.no_fault)
       (snd (wrapper
               (Some (Run.returning
                        (one_half true [(PStr "id", PStr "m1");
                                        (PStr "errors", PInt 0)])))
               None Run.dispatch [] [] (Run.state0 Mock.no_fault))))
    = [].
Proof.
  exact (wrapper_records_one_half
           (Run.returning (one_half true [(PStr "id", PStr "m1");
                                          (PStr "errors", PInt 0)]))
           None Run.dispatch [] [] (Run.state0 Mock.no_fault)
           _ _ _ true _ _ _ eq_refl eq_refl eq_refl eq_refl).
Defined.

(** The call [dispatch('m1')]: the recorder receives the result and the
    empty dict. *)
Lemma recorder_misses_positional_arguments_witness :
  recorder_calls
    (new_events (Run.state0 Mock.no_fault)
       (snd (wrapper (Some (Run.returning PNone)) None Run.dispatch
                     [PStr "m1"] [] (Run.state0 Mock.no_fault))))
    = [(PTuple [PInt 0; PStr "foo"; PStr "bar"], PDict [])] /\
  ~ mapping_of_inputs (PDict []) [PStr "m1"] [].
Proof.
  apply (recorder_misses_positional_arguments (B := mock_backend)
           (Run.returning PNone) None Run.dispatch [PStr "m1"]
           (Run.state0 Mock.no_fault) (Run.state0 Mock.no_fault)
           (PTuple [PInt 0; PStr "foo"; PStr "bar"])
           (@mkState mock_backend [ECallF [PStr "m1"] []]
                     (Mock.fresh Mock.no_fault))).
  - discriminate.
  - reflexivity.
  - reflexivity.
Defined.

(** A recorder that returns a plain dict, and no recorder at all
    ([test_record_decorator_no_recorder_subsegment]): the subsegment [ss1]
    was opened on the backend and is ended, with nothing written on it. *)
Lemma wrapper_without_record_witness :
  new_events (Run.state0 Mock.no_fault)
    (snd (wrapper (Some (Run.returning (PDict [(PStr "id", PStr "m1")])))
                  (Some "ss1"%string) Run.dispatch [] []
                  (Run.state0 Mock.no_fault)))
    = [EBegin "ss1"; ECallF [] [];
       ECallRecorder (PTuple [PInt 0; PStr "foo"; PStr "bar"]) (PDict []);
       EEnd] /\
  new_events (Run.state0 Mock.no_fault)
    (snd (wrapper None (Some "ss1"%string) Run.dispatch [] []
                  (Run.state0 Mock.no_fault)))
    = [EBegin "ss1"; ECallF [] []; EEnd] /\
  wrapper None (Some "ss1"%string) Run.dispatch [] []
          (Run.state0 Mock.no_fault)
    = (Ok (PTuple [PInt 0; PStr "foo"; PStr "bar"]),
       mkState [EBegin "ss1"; ECallF [] []; EEnd]
               (Mock.mkWorld (Some (Mock.mkSpan "segment" [] [])) []
                             [Mock.mkSpan "ss1" [] []] Mock.no_fault)).
Proof.
  destruct (wrapper_without_record (Some "ss1"%string) Run.dispatch [] []
              (Run.state0 Mock.no_fault)) as (H1 & _ & H3 & H4 & _).
  split; [ | split].
  - exact (proj2 (H1 (Run.returning (PDict [(PStr "id", PStr "m1")]))
                     _ _ _ _ _ eq_refl eq_refl eq_refl eq_refl)).
  - exact (H3 _ _ _ eq_refl eq_refl).
  - exact (H4 "ss1"%string _ _ _ eq_refl eq_refl eq_refl).
Defined.

(** ** Where the claims as stated fail *)

(** C1: the backend refuses annotations.  The data write raises, the
    error-marker write of the containment path raises again, and the
    caller receives the exception. *)
Lemma containment_as_stated_fails : ~ containment_as_stated.
Proof.
  intros H.
  destruct (H mock_backend
              (Some (Run.returning
                       (PRecord (PDict [(PStr "id", PStr "m1")]) PNone)))
              None Run.dispatch [] [] (Run.state0 Run.annotations_down)
              Run.RuntimeError _
              ltac:(eapply write_raises; reflexivity))
    as (st' & Hw & _).
  discriminate Hw.
Qed.

(** C3: the recorder raises (as in [test_handle_decorator_error]) and the
    backend refuses metadata.  The error-detail write raises and its
    exception escapes, although the wrapped function returned. *)
Lemma no_escape_as_stated_fails : ~ no_escape_as_stated.
Proof.
  intros H.
  destruct (H mock_backend (Some (Run.raising Run.ZeroDivisionError))
              (Some "ss1"%string) Run.dispatch []
              Run.message
              (Run.state0 Run.metadata_down))
    as (v & st' & Hw).
  - intros a k w. exists (PTuple [PInt 0; PStr "foo"; PStr "bar"]), w.
    reflexivity.
  - discriminate Hw.
Qed.

(** C5: [record_data("k", 3.14, true)] outside a request, where no
    segment is current.  The types are right and the validation passes,
    but [span] is [None] and line 111 raises an [AttributeError]. *)
Lemma validation_as_stated_fails : ~ validation_as_stated.
Proof.
  intros H.
  destruct (H mock_backend (PStr "k") Run.pi_ish true Demo.no_segment)
    as [_ Hv].
  specialize (Hv eq_refl). discriminate Hv.
Qed.

(** C6: [Record(searchable={'k': {}})].  The entry fails the validation,
    no annotation is written for it, and the containment path issues a
    structured write. *)
Lemma one_half_as_stated_fails : ~ one_half_as_stated.
Proof.
  intros H.
  destruct (H mock_backend
              (Run.returning (one_half true [(PStr "k", PDict [])]))
              None Run.dispatch [] [] (Run.state0 Mock.no_fault)
              _ _ _ true [(PStr "k", PDict [])] _
              eq_refl eq_refl eq_refl) as (_ & Hm).
  discriminate Hm.
Qed.

(** C7: the call [dispatch('m1')], one positional argument and no keyword
    argument.  The recorder receives the empty dict, which holds no
    ['m1']. *)
Lemma recorder_inputs_as_stated_fails : ~ recorder_inputs_as_stated.
Proof.
  intros H.
  destruct (H mock_backend (Run.returning PNone) None Run.dispatch
              [PStr "m1"] [] (Run.state0 Mock.no_fault)
              _ _ _ eq_refl eq_refl)
    as (options & Hc & items & -> & _ & Hp).
  injection Hc as Hi. subst items.
  exact (Hp (PStr "m1") (or_introl eq_refl)).
Qed.

(** C9: the wrapped function returns, there is no recorder, and
    [end_subsegment] raises.  The caller receives that exception instead
    of the result. *)
Lemma returns_result_as_stated_fails : ~ returns_result_as_stated.
Proof.
  intros H.
  assert (Hr := H mock_backend None (Some "ss1"%string) Run.dispatch [] []
                  (Run.state0 Run.end_down)
                  (PTuple [PInt 0; PStr "foo"; PStr "bar"]) _
                  ltac:(eexists; eexists; repeat split; reflexivity)).
  discriminate Hr.
Qed.

(** ** Further properties of the module *)

Section Recording.

Context {B : Backend}.

Lemma writes_app l1 l2 : writes (l1 ++ l2) = writes l1 ++ writes l2.
Proof.
  induction l1 as [ | ev l1 IH]; [reflexivity | ].
  destruct ev; simpl; rewrite IH; reflexivity.
Qed.

Lemma writes_put_event sp key value searchable :
  writes [put_event sp key value searchable] = [(searchable, (key, value))].
Proof. destruct searchable; reflexivity. Qed.

(** One call of [record_data] issues its write, or raises before issuing
    it; when it returns the write was issued. *)
Lemma record_data_writes key value searchable st o st' :
  record_data key value searchable st = (o, st') ->
  exists evs,
    log st' = log st ++ evs /\
    (writes evs = [(searchable, (key, value))] \/
     writes evs = [] /\ exists e, o = Raise e) /\
    (o = Ok tt -> writes evs = [(searchable, (key, value))]).
Proof.
  intros H. destruct o as [[] | e].
  - destruct (record_data_ok_inv _ _ _ _ _ H) as (_ & sp & w & _ & _ & L).
    eexists. split; [exact L | ].
    assert (W : writes [ECurrentSegment; ECurrentSubsegment;
                        put_event sp key value searchable]
                = [(searchable, (key, value))])
      by (destruct searchable; reflexivity).
    auto.
  - unfold record_data in H.
    destruct (__assert_type__ key value searchable) as [[] | e0].
    + unfold write_current_span, bind in H.
      destruct (call ECurrentSegment current_segment st)
        as [[segment | e1] s1] eqn:H1;
        apply call_inv in H1 as [_ L1].
      * destruct (call ECurrentSubsegment current_subsegment s1)
          as [[subsegment | e2] s2] eqn:H2;
          apply call_inv in H2 as [_ L2].
        -- unfold put in H.
           destruct (innermost segment subsegment) as [sp | ].
           ++ assert (L3 : log st' = log s2
                             ++ [put_event sp key value searchable]).
              { destruct searchable; apply call_inv in H as [_ L3];
                  exact L3. }
              exists ([ECurrentSegment; ECurrentSubsegment;
                       put_event sp key value searchable]).
              split; [rewrite L3, L2, L1, <- !app_assoc; reflexivity | ].
              split; [left | intros _];
                destruct searchable; reflexivity.
           ++ inversion H; subst.
              exists [ECurrentSegment; ECurrentSubsegment].
              split; [rewrite L2, L1, <- app_assoc; reflexivity | ].
              split; [right; split; [reflexivity | eauto] | discriminate].
        -- inversion H; subst.
           exists [ECurrentSegment; ECurrentSubsegment].
           split; [rewrite L2, L1, <- app_assoc; reflexivity | ].
           split; [right; split; [reflexivity | eauto] | discriminate].
      * inversion H; subst. exists [ECurrentSegment].
        split; [exact L1 | ].
        split; [right; split; [reflexivity | eauto] | discriminate].
    + inversion H; subst. exists []. rewrite app_nil_r.
      split; [reflexivity | ].
      split; [right; split; [reflexivity | eauto] | discriminate].
Qed.

Lemma is_prefix_nil {A} (items : list A) : is_prefix [] items.
Proof. exists items. reflexivity. Qed.

Lemma is_prefix_refl {A} (items : list A) : is_prefix items items.
Proof. exists []. symmetry. apply app_nil_r. Qed.

Lemma is_prefix_cons {A} (x : A) l items :
  is_prefix l items -> is_prefix (x :: l) (x :: items).
Proof. intros [rest ->]. exists rest. reflexivity. Qed.

(** The loop writes the entries in order and stops at the first call that
    raises: what it wrote is a prefix of the items, all of them when it
    returns. *)
Lemma record_items_writes items searchable st o st' :
  record_items items searchable st = (o, st') ->
  exists evs done,
    log st' = log st ++ evs /\
    writes evs = map (pair searchable) done /\
    is_prefix done items /\
    (o = Ok tt -> done = items).
Proof.
  revert st. induction items as [ | [key value] rest IH]; intros st H.
  - inversion H; subst. exists [], []. rewrite app_nil_r.
    repeat split; auto. apply is_prefix_nil.
  - simpl in H. unfold bind in H.
    destruct (record_data key value searchable st) as [[[] | e] sm] eqn:H1.
    + destruct (record_data_writes _ _ _ _ _ _ H1) as (evs1 & L1 & _ & W1).
      destruct (IH _ H) as (evs2 & done & L2 & W2 & P2 & F2).
      exists (evs1 ++ evs2), ((key, value) :: done).
      split; [rewrite L2, L1, <- app_assoc; reflexivity | ].
      split; [rewrite writes_app, (W1 eq_refl), W2; reflexivity | ].
      split; [apply is_prefix_cons; exact P2 | ].
      intros Ho. rewrite (F2 Ho). reflexivity.
    + inversion H; subst.
      destruct (record_data_writes _ _ _ _ _ _ H1)
        as (evs1 & L1 & [W1 | [W1 _]] & _).
      * exists evs1, [(key, value)]. repeat split; auto.
        -- apply is_prefix_cons, is_prefix_nil.
        -- discriminate.
      * exists evs1, []. repeat split; auto.
        -- apply is_prefix_nil.
        -- discriminate.
Qed.

Lemma __record_data___writes data searchable st o st' :
  __record_data__ data searchable st = (o, st') ->
  exists evs done,
    log st' = log st ++ evs /\
    writes evs = map (pair searchable) done /\
    is_prefix done (half_items data) /\
    (o = Ok tt -> done = half_items data).
Proof.
  intros H.
  assert (Hnone : (exists e, o = Raise e) \/ half_items data = [] ->
                  st' = st ->
                  exists evs done,
                    log st' = log st ++ evs /\
                    writes evs = map (pair searchable) done /\
                    is_prefix done (half_items data) /\
                    (o = Ok tt -> done = half_items data)).
  { intros Hc ->. exists [], []. rewrite app_nil_r.
    repeat split; auto; [apply is_prefix_nil | ].
    intros ->. destruct Hc as [[e He] | Hc]; [discriminate He | auto]. }
  destruct data; simpl in H;
    try (inversion H; subst; apply Hnone; eauto; fail);
    exact (record_items_writes _ _ _ _ _ H).
Qed.

(** The writes of [record_extracted] on a Record, for every outcome. *)
Lemma record_extracted_writes searchable non_searchable st o st' :
  record_extracted (PRecord searchable non_searchable) st = (o, st') ->
  exists evs a b,
    log st' = log st ++ evs /\
    writes evs = map (pair true) a ++ map (pair false) b /\
    is_prefix a (half_items searchable) /\
    is_prefix b (half_items non_searchable) /\
    (b <> [] -> a = half_items searchable) /\
    (o = Ok tt ->
     a = half_items searchable /\ b = half_items non_searchable).
Proof.
  simpl. unfold bind.
  destruct (__record_data__ searchable true st) as [o1 s1] eqn:H1.
  destruct (__record_data___writes _ _ _ _ _ H1)
    as (evs1 & a & L1 & W1 & P1 & F1).
  destruct o1 as [[] | e1]; intros H.
  - destruct (__record_data___writes _ _ _ _ _ H)
      as (evs2 & b & L2 & W2 & P2 & F2).
    exists (evs1 ++ evs2), a, b.
    rewrite writes_app, W1, W2, L2, L1, <- app_assoc.
    repeat split; auto.
  - inversion H; subst. exists evs1, a, [].
    rewrite W1. simpl. rewrite app_nil_r.
    repeat split; auto; try discriminate; try apply is_prefix_nil.
    intros Hb. contradiction Hb. reflexivity.
Qed.

(** X2.  The writes that recording a Record issues, whatever happens, are
    a prefix of the entries of its searchable half, as annotations in
    order, followed by a prefix of the entries of its non-searchable half,
    as metadata in order; a metadata is issued only after every
    searchable entry was, and when the recording returns both halves were
    issued in full.  So the recording stops at the first entry that
    raises: no later entry of that half, and nothing of the non-searchable
    half after a failure in the searchable half, is issued. *)
Theorem record_extracted_writes_in_order searchable non_searchable st :
  exists a b,
    writes
      (new_events st
         (snd (record_extracted (PRecord searchable non_searchable) st)))
      = map (pair true) a ++ map (pair false) b /\
    is_prefix a (half_items searchable) /\
    is_prefix b (half_items non_searchable) /\
    (b <> [] -> a = half_items searchable) /\
    (fst (record_extracted (PRecord searchable non_searchable) st) = Ok tt ->
     a = half_items searchable /\ b = half_items non_searchable).
Proof.
  destruct (record_extracted (PRecord searchable non_searchable) st)
    as [o st'] eqn:H.
  destruct (record_extracted_writes _ _ _ _ _ H)
    as (evs & a & b & L & W & Pa & Pb & Hb & Ho).
  exists a, b. cbn [fst snd]. rewrite (new_events_app _ _ _ L).
  auto.
Qed.

(** The log of a wrapped call whose recording completes: the scope
    opening, the two calls, what the recording logged, the scope
    closing. *)
Lemma wrapper_completed_log r subsegment f arg kwargs st s0 result sa data
    sb sc :
  open_scope subsegment st = (Ok tt, s0) ->
  call (ECallF arg kwargs) (f arg kwargs) s0 = (Ok result, sa) ->
  call (ECallRecorder result (dict_of_kwargs kwargs))
       (r result (dict_of_kwargs kwargs)) sa = (Ok data, sb) ->
  record_extracted data sb = (Ok tt, sc) ->
  wrapper_try (Some r) subsegment f arg kwargs st = (Ok result, sc) /\
  forall evs, log sc = log sb ++ evs ->
    new_events st (snd (wrapper (Some r) subsegment f arg kwargs st))
      = open_events subsegment
        ++ [ECallF arg kwargs; ECallRecorder result (dict_of_kwargs kwargs)]
        ++ evs ++ close_events subsegment.
Proof.
  intros Ho Hf Hr Hx.
  assert (Ht : wrapper_try (Some r) subsegment f arg kwargs st
               = (Ok result, sc)).
  { apply steps_complete_try. exists s0, sa. repeat split; auto.
    unfold run_recorder, bind. rewrite Hr, Hx. reflexivity. }
  split; [exact Ht | intros evs L].
  rewrite wrapper_stages, Ht. unfold except_stage.
  apply open_scope_log in Ho.
  apply call_inv in Hf as [_ Hf]. apply call_inv in Hr as [_ Hr].
  destruct (finally_stage subsegment (Ok result) sc) as [o3 st3] eqn:Hc.
  apply finally_stage_log in Hc. cbn [snd].
  apply new_events_app.
  rewrite Hc, L, Hr, Hf, Ho, <- !app_assoc. reflexivity.
Qed.

(** X1.  When the wrapped function returns, the recorder returns a
    Record, and the recording of the Record completes, the writes of the
    wrapped call are exactly: one annotation per entry of the searchable
    half, in order, then one metadata per entry of the non-searchable
    half, in order.  A half that is [None] (the default of [Record])
    contributes nothing. *)
Theorem wrapper_records_both_halves r subsegment f arg kwargs st s0 result
    sa searchable non_searchable sb sc :
  open_scope subsegment st = (Ok tt, s0) ->
  call (ECallF arg kwargs) (f arg kwargs) s0 = (Ok result, sa) ->
  call (ECallRecorder result (dict_of_kwargs kwargs))
       (r result (dict_of_kwargs kwargs)) sa
    = (Ok (PRecord searchable non_searchable), sb) ->
  record_extracted (PRecord searchable non_searchable) sb = (Ok tt, sc) ->
  writes (new_events st (snd (wrapper (Some r) subsegment f arg kwargs st)))
    = map (pair true) (half_items searchable)
      ++ map (pair false) (half_items non_searchable).
Proof.
  intros Ho Hf Hr Hx.
  destruct (record_extracted_writes _ _ _ _ _ Hx)
    as (evs & a & b & L & W & _ & _ & _ & Hab).
  destruct (Hab eq_refl) as [-> ->].
  destruct (wrapper_completed_log _ _ _ _ _ _ _ _ _ _ _ _ Ho Hf Hr Hx)
    as [_ Hlog].
  rewrite (Hlog evs L), !writes_app, W.
  destruct subsegment; simpl; rewrite ?app_nil_r; reflexivity.
Qed.

Lemma wrapper_extends recorder subsegment f arg kwargs st :
  exists evs,
    log (snd (wrapper recorder subsegment f arg kwargs st)) = log st ++ evs.
Proof.
  destruct (wrapper_log (fun _ => True) recorder subsegment f arg kwargs st)
    as (mid & L & _); [repeat split | exact (fun _ _ => I) | exact I | ].
  eauto.
Qed.

Lemma new_events_log st st' evs :
  (exists evs0, log st' = log st ++ evs0) ->
  new_events st st' = evs -> log st' = log st ++ evs.
Proof.
  intros [evs0 L] H. rewrite (new_events_app _ _ _ L) in H. subst.
  exact L.
Qed.

(** The log of a wrapped call, for every outcome: the scope opening, then
    the calls of the wrapped function and of the recorder that were made,
    then queries and writes only, then the scope closing. *)
Lemma wrapper_log_shape recorder subsegment f arg kwargs st :
  exists calls work,
    log (snd (wrapper recorder subsegment f arg kwargs st))
      = log st
        ++ open_events subsegment ++ calls ++ work ++ close_events subsegment
    /\
    Forall query_or_write work /\
    (calls = [] \/ calls = [ECallF arg kwargs] \/
     exists result,
       calls = ECallF arg kwargs :: recorder_events recorder result kwargs)
    /\
    ((exists e s0, open_scope subsegment st = (Raise e, s0)) ->
     calls = []).
Proof.
  destruct (open_scope subsegment st) as [[[] | e] s0] eqn:Ho.
  - destruct (call (ECallF arg kwargs) (f arg kwargs) s0)
      as [[result | e] sa] eqn:Hf.
    + destruct (wrapper_after_f_log recorder _ _ _ _ _ _ _ _ Ho Hf)
        as (work & L & F & _).
      exists (ECallF arg kwargs :: recorder_events recorder result kwargs),
        work.
      split; [exact (new_events_log _ _ _ (wrapper_extends _ _ _ _ _ _) L)
             | ].
      split; [exact F | split; [eauto | ]].
      intros (e & s & He). discriminate He.
    + assert (Ht : wrapper_try recorder subsegment f arg kwargs st
                   = (Raise e, sa)).
      { apply wrapper_try_raises. right. eapply f_raises; eauto. }
      rewrite wrapper_stages, Ht.
      destruct (except_stage (Raise e) sa) as [o2 st2] eqn:Hx.
      destruct (except_stage_log query_or_write _ _ _ _
                  (fun e => wrapper_except_appends _ e
                              query_or_write_admits_writes) Hx)
        as (work & L2 & F2).
      destruct (finally_stage subsegment o2 st2) as [o3 st3] eqn:Hc.
      apply finally_stage_log in Hc.
      apply open_scope_log in Ho. apply call_inv in Hf as [_ Hf].
      exists [ECallF arg kwargs], work. cbn [snd].
      split; [rewrite Hc, L2, Hf, Ho, <- !app_assoc; reflexivity | ].
      split; [exact F2 | split; [auto | ]].
      intros (e' & s & He). discriminate He.
  - assert (Ht : wrapper_try recorder subsegment f arg kwargs st
                 = (Raise e, s0)).
    { apply wrapper_try_raises. left. exact Ho. }
    rewrite wrapper_stages, Ht.
    destruct (except_stage (Raise e) s0) as [o2 st2] eqn:Hx.
    destruct (except_stage_log query_or_write _ _ _ _
                (fun e => wrapper_except_appends _ e
                            query_or_write_admits_writes) Hx)
      as (work & L2 & F2).
    destruct (finally_stage subsegment o2 st2) as [o3 st3] eqn:Hc.
    apply finally_stage_log in Hc. apply open_scope_log in Ho.
    exists [], work. cbn [snd].
    split; [rewrite Hc, L2, Ho, <- !app_assoc; reflexivity | ].
    split; [exact F2 | split; [auto | auto]].
Qed.

Lemma recorder_events_calls recorder result kwargs :
  f_calls (recorder_events recorder result kwargs) = [] /\
  (recorder_calls (recorder_events recorder result kwargs) = [] \/
   recorder_calls (recorder_events recorder result kwargs)
     = [(result, dict_of_kwargs kwargs)]).
Proof. destruct recorder; simpl; auto. Qed.

(** X3.  A wrapped call makes a single attempt: whatever the wrapped
    function, the recorder and the backend do, the wrapped function is
    called at most once, with the arguments of the wrapped call, and the
    recorder is called at most once, only in a call in which the wrapped
    function was called. *)
Theorem wrapper_single_attempt recorder subsegment f arg kwargs st :
  let evs :=
    new_events st (snd (wrapper recorder subsegment f arg kwargs st)) in
  (f_calls evs = [] \/ f_calls evs = [(arg, kwargs)]) /\
  (recorder_calls evs = [] \/
   exists result,
     recorder_calls evs = [(result, dict_of_kwargs kwargs)] /\
     f_calls evs = [(arg, kwargs)]).
Proof.
  intros evs. subst evs.
  destruct (wrapper_log_shape recorder subsegment f arg kwargs st)
    as (calls & work & L & F & Hc & _).
  rewrite (new_events_app _ _ _ L).
  rewrite !f_calls_app, !recorder_calls_app.
  destruct (open_events_no_calls subsegment) as (-> & -> & _).
  destruct (close_events_no_calls subsegment) as (-> & -> & _).
  destruct (query_or_write_no_calls _ F) as (-> & ->).
  rewrite !app_nil_r. simpl.
  destruct Hc as [-> | [-> | [result ->]]]; simpl; auto.
  destruct (recorder_events_calls recorder result kwargs) as (-> & [-> | ->]);
    split; auto.
  right. exists result. auto.
Qed.

Lemma containment_events e :
  appends (fun ev => query_or_write ev /\ no_data_write ev)
          (wrapper_except e).
Proof.
  unfold wrapper_except, __record_error__.
  apply appends_bind; [ | intros _; apply appends_ret].
  apply appends_bind;
    [ | intros _; destruct (exn_repr_raises e); [apply appends_raise | ]];
    (eapply appends_weaken; [ | apply record_data_appends]);
    intros ev [-> | [-> | [sp ->]]]; simpl; eauto.
Qed.

(** X4.  When [begin_subsegment] raises, the wrapped function and the
    recorder are not called, and [end_subsegment] is called all the same,
    as the last action, although the call opened no scope; in between
    there are only the queries and writes of the containment path, made on
    the state in which [begin_subsegment] left the backend. *)
Theorem scope_open_failure recorder name f arg kwargs st e w :
  begin_subsegment name (backend st) = (Raise e, w) ->
  let evs :=
    new_events st (snd (wrapper recorder (Some name) f arg kwargs st)) in
  f_calls evs = [] /\ recorder_calls evs = [] /\
  exists work, evs = EBegin name :: work ++ [EEnd] /\
               Forall query_or_write work /\
               Forall no_data_write work /\
               backend (snd (wrapper recorder (Some name) f arg kwargs st))
                 = snd (end_subsegment (replay f recorder work w)).
Proof.
  intros Hb evs. subst evs.
  assert (Ho : open_scope (Some name) st
               = (Raise e, mkState (log st ++ [EBegin name]) w))
    by (simpl; unfold call; rewrite Hb; reflexivity).
  assert (Ht : wrapper_try recorder (Some name) f arg kwargs st
               = (Raise e, mkState (log st ++ [EBegin name]) w))
    by (apply wrapper_try_raises; left; exact Ho).
  pose proof (wrapper_backend recorder (Some name) f arg kwargs st) as Hw.
  rewrite wrapper_stages, Ht in *.
  destruct (except_stage (Raise e) (mkState (log st ++ [EBegin name]) w))
    as [o2 st2] eqn:Hx.
  destruct (except_stage_log _ _ _ _ _ containment_events Hx)
    as (work & L2 & F2).
  destruct (finally_stage (Some name) o2 st2) as [o3 st3] eqn:Hc.
  apply finally_stage_log in Hc. cbn [snd] in *.
  assert (L : log st3 = log st ++ EBegin name :: work ++ [EEnd]).
  { rewrite Hc, L2. cbn [log close_events].
    rewrite <- !app_assoc. reflexivity. }
  rewrite (new_events_app _ _ _ L) in *.
  assert (Fq : Forall query_or_write work)
    by (eapply Forall_impl; [ | exact F2]; intros ev [H _]; exact H).
  assert (Fn : Forall no_data_write work)
    by (eapply Forall_impl; [ | exact F2]; intros ev [_ H]; exact H).
  change (EBegin name :: work ++ [EEnd])
    with ([EBegin name] ++ work ++ [EEnd]).
  rewrite !f_calls_app, !recorder_calls_app.
  destruct (query_or_write_no_calls _ Fq) as (-> & ->).
  split; [reflexivity | split; [reflexivity | ]].
  exists work. repeat split; auto.
  rewrite Hw. change ([EBegin name] ++ work ++ [EEnd])
    with (EBegin name :: work ++ [EEnd]).
  rewrite replay_bracket, Hb. reflexivity.
Qed.

(** X5.  An exception that is no instance of [Exception], raised by the
    wrapped function, the recorder or a data write, passes through the
    wrapped call: when the scope closing completes the caller receives
    that very exception, and between the failure and the scope closing
    nothing is called -- no error marker is written. *)
Theorem wrapper_passes_non_Exception recorder subsegment f arg kwargs st x
    st1 st2 :
  step_raises recorder subsegment f arg kwargs st x st1 ->
  exn_is_Exception x = false ->
  close_scope subsegment st1 = (Ok tt, st2) ->
  wrapper recorder subsegment f arg kwargs st = (Raise x, st2) /\
  new_events st1 st2 = close_events subsegment.
Proof.
  intros Hs Hx Hc. split.
  - rewrite wrapper_stages.
    assert (Ht : wrapper_try recorder subsegment f arg kwargs st
                 = (Raise x, st1))
      by (apply wrapper_try_raises; right; exact Hs).
    rewrite Ht. unfold except_stage, finally_stage. rewrite Hx, Hc.
    reflexivity.
  - apply new_events_app. exact (close_scope_log _ _ _ _ Hc).
Qed.

Lemma keepsM_ret {A} Inv (a : A) : keepsM Inv (ret a).
Proof. intros st o st' HI H. inversion H; subst. exact HI. Qed.

Lemma keepsM_raise {A} Inv (e : exn) : keepsM Inv (@raise _ A e).
Proof. intros st o st' HI H. inversion H; subst. exact HI. Qed.

Lemma keepsM_call {A} Inv ev (op : world -> outcome A * world) :
  keeps Inv op -> keepsM Inv (call ev op).
Proof.
  intros Hk st o st' HI H. apply call_inv in H as [H _].
  exact (Hk _ _ _ HI H).
Qed.

Lemma keepsM_bind {A C} Inv (m : M A) (k : A -> M C) :
  keepsM Inv m -> (forall a, keepsM Inv (k a)) -> keepsM Inv (bind m k).
Proof.
  intros Hm Hk st o st' HI H. unfold bind in H.
  destruct (m st) as [[a | e] s1] eqn:E.
  - exact (Hk a _ _ _ (Hm _ _ _ HI E) H).
  - inversion H; subst. exact (Hm _ _ _ HI E).
Qed.

(** On a reliable backend a write raises only by its validation, and
    keeps the invariant. *)
Lemma record_data_reliable Inv key value searchable st :
  reliable Inv -> Inv (backend st) ->
  Inv (backend (snd (record_data key value searchable st))) /\
  (__assert_type__ key value searchable = Ok tt ->
   fst (record_data key value searchable st) = Ok tt).
Proof.
  intros (_ & _ & Hq & Ha & Hm) HI.
  destruct (__assert_type__ key value searchable) as [[] | e] eqn:Hv.
  - destruct (Hq _ HI)
      as (sp & w' & (segment & subsegment & w1 & Hs & Hss & Hi) & HI').
    rewrite (record_data_valid _ _ _ _ _ _ _ _ _ Hv Hs Hss Hi).
    cbn [fst snd backend]. unfold backend_put.
    destruct searchable.
    + destruct (Ha sp key value w' HI') as (w2 & -> & HI2). auto.
    + destruct (Hm sp key value w' HI') as (w2 & -> & HI2). auto.
  - rewrite (record_data_invalid _ _ _ _ _ Hv). split; [exact HI | ].
    discriminate.
Qed.

Lemma record_data_keeps Inv key value searchable :
  reliable Inv -> keepsM Inv (record_data key value searchable).
Proof.
  intros HR st o st' HI H.
  destruct (record_data_reliable Inv key value searchable st HR HI)
    as [HI' _].
  rewrite H in HI'. exact HI'.
Qed.

Lemma record_extracted_keeps Inv data :
  reliable Inv -> keepsM Inv (record_extracted data).
Proof.
  intros HR.
  assert (Hitems : forall items searchable,
             keepsM Inv (record_items items searchable)).
  { induction items as [ | [key value] rest IH]; intros searchable; simpl.
    - apply keepsM_ret.
    - apply keepsM_bind; [apply record_data_keeps; exact HR | ].
      intros _. apply IH. }
  assert (Hhalf : forall half searchable,
             keepsM Inv (__record_data__ half searchable)).
  { intros half searchable. destruct half; simpl;
      try apply keepsM_raise; try apply keepsM_ret; apply Hitems. }
  destruct data; simpl; try apply keepsM_ret.
  apply keepsM_bind; [ | intros _]; apply Hhalf.
Qed.

Lemma wrapper_try_keeps Inv recorder subsegment f arg kwargs :
  reliable Inv ->
  (forall a k, keeps Inv (f a k)) ->
  (forall r, recorder = Some r -> forall a b, keeps Inv (r a b)) ->
  keepsM Inv (wrapper_try recorder subsegment f arg kwargs).
Proof.
  intros HR Hf Hr. rewrite wrapper_try_unfold.
  apply keepsM_bind.
  - destruct subsegment as [name | ]; simpl; [ | apply keepsM_ret].
    apply keepsM_call. destruct HR as (Hb & _). apply Hb.
  - intros _. apply keepsM_bind; [apply keepsM_call; apply Hf | ].
    intros result. apply keepsM_bind; [ | intros _; apply keepsM_ret].
    destruct recorder as [r | ]; simpl; [ | apply keepsM_ret].
    apply keepsM_bind; [apply keepsM_call; apply (Hr r eq_refl) | ].
    intros data. apply record_extracted_keeps. exact HR.
Qed.

(** On a reliable backend the containment path completes, unless the
    [__repr__] of the error raises: then the error marker is written and
    the exception of [__repr__] is raised. *)
Lemma __record_error___reliable Inv error st :
  reliable Inv -> Inv (backend st) ->
  exists sm st',
    record_data (PStr "instrumentation_error") (PBool true) true st
      = (Ok tt, sm) /\
    __record_error__ error st =
      (match exn_repr_raises error with
       | Some x => Raise x
       | None => Ok tt
       end, st') /\
    Inv (backend st') /\
    (forall x, exn_repr_raises error = Some x -> st' = sm).
Proof.
  intros HR HI. unfold __record_error__, bind.
  destruct (record_data_reliable Inv (PStr "instrumentation_error")
              (PBool true) true st HR HI) as [HI1 H1].
  destruct (record_data (PStr "instrumentation_error") (PBool true) true st)
    as [o1 s1].
  cbn [fst snd] in *. rewrite (H1 eq_refl).
  destruct (exn_repr_raises error) as [x | ].
  - exists s1, s1. unfold raise. repeat split; auto.
  - destruct (record_data_reliable Inv (PStr "instrumentation_error_detail")
                (error_detail error) false s1 HR HI1) as [HI2 H2].
    destruct (record_data (PStr "instrumentation_error_detail")
                (error_detail error) false s1) as [o2 s2].
    cbn [fst snd] in *. rewrite (H2 eq_refl).
    exists s1, s2. repeat split; auto. discriminate.
Qed.

(** The outcome of a wrapped call on a reliable backend. *)
Lemma wrapper_reliable_run (Inv : world -> Prop) recorder subsegment f arg
    kwargs st o1 st1 :
  reliable Inv ->
  Inv (backend st) ->
  (forall a k, keeps Inv (f a k)) ->
  (forall r, recorder = Some r -> forall a b, keeps Inv (r a b)) ->
  wrapper_try recorder subsegment f arg kwargs st = (o1, st1) ->
  exists st',
    wrapper recorder subsegment f arg kwargs st = (contained o1, st') /\
    (exists evs, log st' = log st1 ++ evs) /\
    writes (new_events st1 st') =
      match o1 with
      | Ok _ => []
      | Raise e =>
          if exn_is_Exception e
          then (true, (PStr "instrumentation_error", PBool true))
               :: match exn_repr_raises e with
                  | Some _ => []
                  | None => [(false, (PStr "instrumentation_error_detail",
                                      error_detail e))]
                  end
          else []
      end.
Proof.
  intros HR HI Hf Hr Ht. rewrite wrapper_stages, Ht.
  assert (HI1 : Inv (backend st1))
    by exact (wrapper_try_keeps Inv _ _ _ _ _ HR Hf Hr _ _ _ HI Ht).
  assert (Hclose : forall s, Inv (backend s) ->
             exists s', close_scope subsegment s = (Ok tt, s')).
  { intros s Hs. destruct subsegment as [name | ]; simpl.
    - destruct HR as (_ & He & _). destruct (He _ Hs) as (w' & Hw).
      unfold call. rewrite Hw. eauto.
    - unfold ret. eauto. }
  assert (Wclose : writes (close_events subsegment) = [])
    by (destruct subsegment; reflexivity).
  unfold except_stage, finally_stage, contained.
  destruct o1 as [r | e].
  - destruct (Hclose _ HI1) as (s' & Hc). rewrite Hc.
    apply close_scope_log in Hc.
    exists s'. rewrite (new_events_app _ _ _ Hc). eauto.
  - destruct (exn_is_Exception e) eqn:He.
    + unfold wrapper_except, bind.
      destruct (__record_error___reliable Inv e st1 HR HI1)
        as (sm & st2 & Hm & H2 & HI2 & Hsm).
      rewrite H2.
      destruct (record_data_ok_inv _ _ _ _ _ Hm)
        as (_ & sp1 & wa & _ & _ & Lm).
      destruct (exn_repr_raises e) as [x | ] eqn:Hx.
      * rewrite (Hsm x eq_refl) in *.
        destruct (Hclose _ HI2) as (s' & Hc). rewrite Hc.
        exists s'. split; [reflexivity | ].
        apply close_scope_log in Hc.
        assert (L' : log s' = log st1
                       ++ [ECurrentSegment; ECurrentSubsegment;
                           put_event sp1 (PStr "instrumentation_error")
                                     (PBool true) true]
                       ++ close_events subsegment)
          by (rewrite Hc, Lm, <- app_assoc; reflexivity).
        split; [eauto | ].
        rewrite (new_events_app _ _ _ L'), writes_app, Wclose. reflexivity.
      * unfold ret.
        destruct (Hclose _ HI2) as (s' & Hc). rewrite Hc.
        exists s'. split; [reflexivity | ].
        destruct (__record_error___ok_inv _ _ _ H2)
          as (sm' & sp1' & sp2 & wa' & wb & _ & _ & _ & L).
        apply close_scope_log in Hc.
        assert (L' : log s' = log st1
                       ++ error_events sp1' sp2 e ++ close_events subsegment)
          by (rewrite Hc, L, <- app_assoc; reflexivity).
        split; [eauto | ].
        rewrite (new_events_app _ _ _ L'), writes_app, Wclose. reflexivity.
    + destruct (Hclose _ HI1) as (s' & Hc). rewrite Hc.
      apply close_scope_log in Hc.
      exists s'. rewrite (new_events_app _ _ _ Hc). eauto.
Qed.

(** X6.  On a backend that works -- under an invariant that the wrapped
    function and the recorder keep, the scope calls return, the queries
    name a span and the writes are accepted -- the outcome of a wrapped
    call is that of its [try] suite with every instance of [Exception]
    whose [__repr__] returns turned into the return value [None]: a result
    is returned as it is, and what reaches the caller is an exception that
    is no instance of [Exception], or the exception that the [__repr__] of
    a caught one raised at line 140. *)
Theorem wrapper_on_reliable_backend (Inv : world -> Prop) recorder
    subsegment f arg kwargs st :
  reliable Inv ->
  Inv (backend st) ->
  (forall a k, keeps Inv (f a k)) ->
  (forall r, recorder = Some r -> forall a b, keeps Inv (r a b)) ->
  fst (wrapper recorder subsegment f arg kwargs st) =
    match fst (wrapper_try recorder subsegment f arg kwargs st) with
    | Ok result => Ok result
    | Raise e =>
        if exn_is_Exception e then
          match exn_repr_raises e with
          | None => Ok PNone
          | Some x => Raise x
          end
        else Raise e
    end.
Proof.
  intros HR HI Hf Hr.
  destruct (wrapper_try recorder subsegment f arg kwargs st)
    as [o1 st1] eqn:Ht.
  destruct (wrapper_reliable_run Inv _ _ _ _ _ _ _ _ HR HI Hf Hr Ht)
    as (st' & -> & _).
  reflexivity.
Qed.

(** X12.  The validation tests the type itself, not the class hierarchy:
    a key that is an instance of a subclass of [str] raises the key-type
    error, and under a key of type [str] a value that is an instance of a
    subclass of [str] or a mapping other than a [dict] (an [OrderedDict])
    raises the type error of the kind asked for; in both cases no backend
    call is made. *)
Theorem record_data_tests_exact_types key value searchable st :
  (is_string key = true -> exact_type key = false ->
     record_data key value searchable st =
       (Raise (ValueError "key must be a string"), st)) /\
  (spec_string key = true -> exact_type value = false ->
     record_data key value searchable st =
       (Raise (ValueError (if searchable then SEARCHABLE_TYPE_MSG
                           else NON_SEARCHABLE_TYPE_MSG)), st)).
Proof.
  split.
  - intros Hk He. apply record_data_invalid.
    destruct key; try discriminate Hk; try discriminate He. reflexivity.
  - intros Hk He. apply record_data_invalid.
    rewrite assert_type_table, Hk.
    destruct value; try discriminate He; destruct searchable; reflexivity.
Qed.

End Recording.

(** ** Properties of the message server *)

Section Server.

Context {B : Backend} {S : Services}.

Lemma record_items_reliable Inv items searchable st :
  reliable Inv -> Inv (backend st) ->
  Forall (fun kv => __assert_type__ (fst kv) (snd kv) searchable = Ok tt)
         items ->
  exists st',
    record_items items searchable st = (Ok tt, st') /\ Inv (backend st').
Proof.
  intros HR. revert st.
  induction items as [ | [key value] rest IH]; intros st HI HV.
  - exists st. auto.
  - inversion HV as [ | kv l Hkv Hrest]; subst. simpl in Hkv.
    simpl. unfold bind.
    destruct (record_data_reliable Inv key value searchable st HR HI)
      as [HI1 H1].
    destruct (record_data key value searchable st) as [o1 s1].
    cbn [fst snd] in *. rewrite (H1 Hkv). apply IH; assumption.
Qed.

(** The Record that [recorder_segment] builds is recorded in full on a
    reliable backend as soon as the message id is of a searchable type. *)
Lemma segment_record_reliable Inv msgid resp_data st :
  reliable Inv -> Inv (backend st) ->
  spec_string_boolean_or_numeric msgid = true ->
  exists st',
    record_extracted
      (PRecord (PDict [(PStr "messageid", msgid)])
               (PDict [(PStr "notification", PDict resp_data)])) st
      = (Ok tt, st') /\ Inv (backend st').
Proof.
  intros HR HI Hm. simpl. unfold bind.
  destruct (record_items_reliable Inv [(PStr "messageid", msgid)] true st
              HR HI) as (s1 & H1 & HI1).
  { constructor; [ | constructor]. simpl.
    rewrite assert_type_table, Hm. reflexivity. }
  simpl in H1. unfold bind in H1. rewrite H1.
  destruct (record_items_reliable Inv
              [(PStr "notification", PDict resp_data)] false s1 HR HI1)
    as (s2 & H2 & HI2).
  { constructor; [reflexivity | constructor]. }
  simpl in H2. unfold bind in H2. rewrite H2. eauto.
Qed.

Lemma recorder_segment_keeps Inv response options :
  keeps Inv (recorder_segment response options).
Proof.
  intros w o w' HI H. unfold recorder_segment in H.
  destruct (response_json response) as [json_data | e];
    [ | inversion H; subst; exact HI].
  destruct (subscript json_data "notificationid") as [nid | e];
    [ | inversion H; subst; exact HI].
  destruct (subscript json_data "channel") as [ch | e];
    [ | inversion H; subst; exact HI].
  destruct (subscript options "msgid") as [m | e];
    inversion H; subst; exact HI.
Qed.

Lemma dict_get_kwargs_missing key kwargs :
  ~ In key (map fst kwargs) ->
  Run.dict_get key (map (fun kv => (PStr (fst kv), snd kv)) kwargs) = None.
Proof.
  induction kwargs as [ | [k v] rest IH]; intros Hn; [reflexivity | ].
  simpl in *. destruct (String.eqb k key) eqn:E.
  - apply String.eqb_eq in E. contradiction Hn. auto.
  - apply IH. intros Hin. apply Hn. auto.
Qed.

(** X7.  The decorated [dispatch] on a reliable backend: when its body
    returns a response whose JSON holds [notificationid] and [channel],
    and the call was made with a keyword argument [msgid] of a searchable
    type, the call returns that response and writes exactly the annotation
    [messageid] with the message id, then the metadata [notification]
    with the dict of [id] and [channel] taken from the JSON. *)
Theorem dispatch_recorded (Inv : world -> Prop) f arg kwargs st response sa
    json_data notificationid channel msgid :
  reliable Inv ->
  Inv (backend st) ->
  (forall a k, keeps Inv (f a k)) ->
  call (ECallF arg kwargs) (f arg kwargs) st = (Ok response, sa) ->
  response_json response = Ok json_data ->
  subscript json_data "notificationid" = Ok notificationid ->
  subscript json_data "channel" = Ok channel ->
  subscript (dict_of_kwargs kwargs) "msgid" = Ok msgid ->
  spec_string_boolean_or_numeric msgid = true ->
  exists st',
    record (Some recorder_segment) None f arg kwargs st
      = (Ok response, st') /\
    writes (new_events st st') =
      [(true, (PStr "messageid", msgid));
       (false, (PStr "notification",
                PDict [(PStr "id", notificationid);
                       (PStr "channel", channel)]))].
Proof.
  intros HR HI Hk Hf Hj Hn Hc Hm Hv.
  unfold record, wrapper_outer.
  assert (HIa : Inv (backend sa)).
  { apply call_inv in Hf as [Hf' _]. exact (Hk _ _ _ _ _ HI Hf'). }
  set (data := PRecord (PDict [(PStr "messageid", msgid)])
                 (PDict [(PStr "notification",
                          PDict [(PStr "id", notificationid);
                                 (PStr "channel", channel)])])).
  set (sb := mkState (log sa ++ [ECallRecorder response
                                   (dict_of_kwargs kwargs)]) (backend sa)).
  assert (Hr : call (ECallRecorder response (dict_of_kwargs kwargs))
                    (recorder_segment response (dict_of_kwargs kwargs)) sa
               = (Ok data, sb)).
  { unfold call, recorder_segment. rewrite Hj, Hn, Hc, Hm. reflexivity. }
  destruct (segment_record_reliable Inv msgid
              [(PStr "id", notificationid); (PStr "channel", channel)]
              sb HR HIa Hv) as (sc & Hx & HIc).
  destruct (wrapper_completed_log recorder_segment None f arg kwargs st st
              response sa data sb sc eq_refl Hf Hr Hx) as [Ht Hlog].
  destruct (record_extracted_writes _ _ _ _ _ Hx)
    as (evs & a & b & L & W & _ & _ & _ & Hab).
  destruct (Hab eq_refl) as [-> ->].
  specialize (Hlog evs L). unfold recorder_fun in *.
  rewrite wrapper_stages, Ht in Hlog. rewrite wrapper_stages, Ht.
  unfold except_stage, finally_stage, close_scope, ret in *.
  cbn [snd] in Hlog. exists sc. split; [reflexivity | ].
  rewrite Hlog, !writes_app, W. reflexivity.
Qed.

(** X8.  The decorated [dispatch] called without a keyword argument named
    [msgid] (as in a positional call), on a reliable backend: when its
    body returns a response whose JSON holds [notificationid] and
    [channel], [recorder_segment] raises [KeyError('msgid')], which is
    contained: the caller receives [None] in place of the response, and
    the only writes are the error marker and the error detail of that
    [KeyError]. *)
Theorem dispatch_without_keyword_msgid (Inv : world -> Prop) f arg kwargs st
    response sa json_data notificationid channel :
  reliable Inv ->
  Inv (backend st) ->
  (forall a k, keeps Inv (f a k)) ->
  call (ECallF arg kwargs) (f arg kwargs) st = (Ok response, sa) ->
  response_json response = Ok json_data ->
  subscript json_data "notificationid" = Ok notificationid ->
  subscript json_data "channel" = Ok channel ->
  ~ In "msgid"%string (map fst kwargs) ->
  exists st',
    record (Some recorder_segment) None f arg kwargs st = (Ok PNone, st') /\
    writes (new_events st st') =
      [(true, (PStr "instrumentation_error", PBool true));
       (false, (PStr "instrumentation_error_detail",
                error_detail (Run.KeyError "msgid")))].
Proof.
  intros HR HI Hk Hf Hj Hn Hc Hm.
  unfold record, wrapper_outer.
  set (sb := mkState (log sa ++ [ECallRecorder response
                                   (dict_of_kwargs kwargs)]) (backend sa)).
  assert (Hr : call (ECallRecorder response (dict_of_kwargs kwargs))
                    (recorder_segment response (dict_of_kwargs kwargs)) sa
               = (Raise (Run.KeyError "msgid"), sb)).
  { unfold call, recorder_segment. rewrite Hj, Hn, Hc.
    unfold subscript, dict_of_kwargs.
    rewrite (dict_get_kwargs_missing _ _ Hm). reflexivity. }
  assert (Ht : wrapper_try (Some recorder_segment) None f arg kwargs st
               = (Raise (Run.KeyError "msgid"), sb)).
  { apply wrapper_try_raises. right.
    eapply recorder_raises; eauto. reflexivity. }
  assert (Hrk : forall r, Some recorder_segment = Some r ->
                 forall a b, keeps Inv (r a b)).
  { intros r Heq a b. inversion Heq; subst.
    apply recorder_segment_keeps. }
  destruct (wrapper_reliable_run Inv (Some recorder_segment) None f arg
              kwargs st _ _ HR HI Hk Hrk Ht)
    as (st' & Hw & (evs & L2) & W).
  exists st'. split; [exact Hw | ].
  simpl in W.
  assert (L1 : log sb = log st ++ [ECallF arg kwargs;
                                   ECallRecorder response
                                     (dict_of_kwargs kwargs)]).
  { apply call_inv in Hf as [_ Hf]. subst sb. simpl.
    rewrite Hf, <- app_assoc. reflexivity. }
  rewrite (new_events_app st st'
             ([ECallF arg kwargs;
               ECallRecorder response (dict_of_kwargs kwargs)] ++ evs))
    by (rewrite L2, L1, <- app_assoc; reflexivity).
  rewrite (new_events_app _ _ _ L2) in W.
  rewrite writes_app, W. reflexivity.
Qed.

Lemma channel_of_cases priority :
  (str_value priority = Some "High"%string /\
   channel_of priority = "sms"%string) \/
  (str_value priority <> Some "High"%string /\
   channel_of priority = "email"%string).
Proof.
  unfold channel_of, equals_str, str_value.
  destruct priority; try (right; split; [discriminate | reflexivity]);
    (destruct (String.eqb s "High") eqn:E;
     [apply String.eqb_eq in E; subst; auto
     | right; split; [ | reflexivity]; intros H; inversion H; subst;
       rewrite String.eqb_refl in E; discriminate E]).
Qed.

(** Once the two accessors and the HTTP call have returned,
    [process_message] is the selected processor followed by the
    construction of the answer. *)
Lemma process_message_run msgid message priority st seg1 w1 seg2 w2 w3 :
  current_segment (backend st) = (Ok (Some seg1), w1) ->
  current_segment w1 = (Ok (Some seg2), w2) ->
  urlopen_read ("http://localhost:9000/process/" ++ msgid)%string
               [("X-Amzn-Trace-Id"%string,
                 trace_header (trace_id seg1) (segment_id seg2))] w2
    = (Ok tt, w3) ->
  process_message msgid message priority st =
    match wrapper None (Some (channel_of priority))
                  (processor_body priority) [PStr msgid; message] []
                  (mkState (log st ++ [ECurrentSegment; ECurrentSegment])
                           w3) with
    | (Ok notificationid, s) =>
        (Ok (PDict [(PStr "notificationid", notificationid);
                    (PStr "channel", PStr (channel_of priority))]), s)
    | (Raise e, s) => (Raise e, s)
    end.
Proof.
  intros H1 H2 H3.
  unfold process_message, current_trace_id, current_segment_id, bind, call,
    outside, ret.
  rewrite H1. cbn [backend log]. rewrite H2. cbn [backend log].
  unfold trace_header in H3. rewrite H3. cbn [backend log].
  rewrite <- app_assoc.
  unfold processor_body, channel_of, sms_processor, email_processor,
    record, wrapper_outer.
  destruct (equals_str priority "High"); reflexivity.
Qed.

(** X9.  When its surroundings work, [process_message] never fails
    because of the notification processor.  The two accessors read the
    segment, the HTTP call is made with the trace header, the subsegment
    of the channel is opened, and the answer is the dict of
    [notificationid] and [channel], where the channel is the one selected
    by the priority and the notification id is what the selected processor
    body returns when called, in the state [begin_subsegment] left, with
    the message id and the message -- or [None] when that body raises, the
    failure being swallowed by the decorator. *)
Theorem process_message_hides_processor_failure (Inv : world -> Prop)
    msgid message priority st :
  working_services Inv ->
  Inv (backend st) ->
  exists seg1 w1 seg2 w2 w3 wb,
    current_segment (backend st) = (Ok (Some seg1), w1) /\
    current_segment w1 = (Ok (Some seg2), w2) /\
    urlopen_read ("http://localhost:9000/process/" ++ msgid)%string
                 [("X-Amzn-Trace-Id"%string,
                   trace_header (trace_id seg1) (segment_id seg2))] w2
      = (Ok tt, w3) /\
    begin_subsegment (channel_of priority) w3 = (Ok tt, wb) /\
    fst (process_message msgid message priority st) =
      Ok (PDict [(PStr "notificationid",
                  match fst (processor_body priority [PStr msgid; message]
                               [] wb) with
                  | Ok notificationid => notificationid
                  | Raise _ => PNone
                  end);
                 (PStr "channel", PStr (channel_of priority))]).
Proof.
  intros (HR & Hseg & Hbegin & Hurl & Hkeep & Hexc) HI.
  destruct (Hseg _ HI) as (seg1 & w1 & H1 & HI1).
  destruct (Hseg _ HI1) as (seg2 & w2 & H2 & HI2).
  destruct (Hurl ("http://localhost:9000/process/" ++ msgid)%string
                 [("X-Amzn-Trace-Id"%string,
                   trace_header (trace_id seg1) (segment_id seg2))]
                 _ HI2) as (w3 & H3 & HI3).
  destruct (Hbegin (channel_of priority) _ HI3) as (wb & Hb).
  exists seg1, w1, seg2, w2, w3, wb.
  split; [exact H1 | split; [exact H2 | split; [exact H3 | ]]].
  split; [exact Hb | ].
  rewrite (process_message_run _ _ _ _ _ _ _ _ _ H1 H2 H3).
  set (s3 := mkState (log st ++ [ECurrentSegment; ECurrentSegment]) w3).
  destruct (processor_body priority [PStr msgid; message] [] wb)
    as [ob w'] eqn:Hbody.
  assert (Ht : wrapper_try None (Some (channel_of priority))
                 (processor_body priority) [PStr msgid; message] [] s3
               = (ob, mkState (log s3 ++ [EBegin (channel_of priority)]
                                 ++ [ECallF [PStr msgid; message] []]) w')).
  { unfold wrapper_try, open_scope, run_recorder, bind, call, ret.
    subst s3. cbn [backend log]. rewrite Hb. cbn [backend log].
    rewrite Hbody. rewrite <- !app_assoc.
    destruct ob; reflexivity. }
  destruct (wrapper_reliable_run Inv None (Some (channel_of priority))
              (processor_body priority) [PStr msgid; message] [] s3
              _ _ HR HI3 (Hkeep priority)
              (fun r Heq => match Heq with end) Ht)
    as (st' & Hw & _).
  unfold recorder_fun in *. rewrite Hw. cbn [fst].
  destruct ob as [r | e]; [reflexivity | ].
  destruct (Hexc _ _ _ _ _ _ Hbody) as [He Hr].
  unfold contained. rewrite He, Hr. reflexivity.
Qed.

(** X10.  Once the two accessors have read a current segment and the HTTP
    call -- made with the header [Root=<trace id>;Parent=<segment id>] of
    that segment -- has returned, [process_message] opens exactly one
    subsegment, closes it as its last action, and calls one processor
    body at most once in between, with the message id and the message as
    positional arguments and no keyword argument; the backend is left in
    the state that [begin_subsegment], made on the state the HTTP call
    left, these calls and [end_subsegment] produce.  The subsegment is
    [sms] when the priority is a string with the characters ['High'] and
    [email] for any other priority.  The accessors query the segment
    only. *)
Theorem process_message_scope msgid message priority st seg1 w1 seg2 w2 w3 :
  current_segment (backend st) = (Ok (Some seg1), w1) ->
  current_segment w1 = (Ok (Some seg2), w2) ->
  urlopen_read ("http://localhost:9000/process/" ++ msgid)%string
               [("X-Amzn-Trace-Id"%string,
                 trace_header (trace_id seg1) (segment_id seg2))] w2
    = (Ok tt, w3) ->
  (exists calls work,
     new_events st (snd (process_message msgid message priority st)) =
       [ECurrentSegment; ECurrentSegment; EBegin (channel_of priority)]
       ++ calls ++ work ++ [EEnd] /\
     Forall query_or_write work /\
     (calls = [] \/ calls = [ECallF [PStr msgid; message] []]) /\
     backend (snd (process_message msgid message priority st)) =
       snd (end_subsegment
              (replay (processor_body priority) None (calls ++ work)
                 (snd (begin_subsegment (channel_of priority) w3))))) /\
  ((str_value priority = Some "High"%string /\
    channel_of priority = "sms"%string) \/
   (str_value priority <> Some "High"%string /\
    channel_of priority = "email"%string)).
Proof.
  intros H1 H2 H3. split; [ | apply channel_of_cases].
  rewrite (process_message_run _ _ _ _ _ _ _ _ _ H1 H2 H3).
  set (s3 := mkState (log st ++ [ECurrentSegment; ECurrentSegment]) w3).
  destruct (wrapper_log_shape None (Some (channel_of priority))
              (processor_body priority) [PStr msgid; message] [] s3)
    as (calls & work & L & F & Hc & _).
  exists calls, work.
  assert (Hs : snd (match wrapper None (Some (channel_of priority))
                            (processor_body priority)
                            [PStr msgid; message] [] s3 with
                    | (Ok notificationid, s) =>
                        (Ok (PDict
                               [(PStr "notificationid", notificationid);
                                (PStr "channel",
                                 PStr (channel_of priority))]), s)
                    | (Raise e, s) => (Raise e, s)
                    end)
               = snd (wrapper None (Some (channel_of priority))
                              (processor_body priority)
                              [PStr msgid; message] [] s3)).
  { destruct (wrapper None (Some (channel_of priority))
                      (processor_body priority) [PStr msgid; message] []
                      s3) as [[r | e] s]; reflexivity. }
  rewrite Hs. clear Hs.
  split; [ | split; [exact F | split]].
  - apply new_events_app. rewrite L. subst s3. cbn [log].
    rewrite <- !app_assoc. reflexivity.
  - destruct Hc as [-> | [-> | [result ->]]]; auto.
  - rewrite wrapper_backend, (new_events_app _ _ _ L).
    cbn [open_events close_events].
    change ([EBegin (channel_of priority)] ++ calls ++ work ++ [EEnd])
      with (EBegin (channel_of priority) :: calls ++ work ++ [EEnd]).
    rewrite app_assoc, replay_bracket. reflexivity.
Qed.

(** X11.  [process_message] fails early.  When no segment is current,
    the first accessor raises the [AttributeError] of [None.trace_id]
    after its single query; when the HTTP call raises, that exception is
    raised after the two queries of the accessors.  In both cases the
    exception reaches the caller, no subsegment is opened and no processor
    is called. *)
Theorem process_message_fails_early msgid message priority st :
  (forall w,
     current_segment (backend st) = (Ok None, w) ->
     process_message msgid message priority st =
       (Raise (AttributeError TNoneType "trace_id"),
        mkState (log st ++ [ECurrentSegment]) w)) /\
  (forall seg1 w1 seg2 w2 e w3,
     current_segment (backend st) = (Ok (Some seg1), w1) ->
     current_segment w1 = (Ok (Some seg2), w2) ->
     urlopen_read ("http://localhost:9000/process/" ++ msgid)%string
                  [("X-Amzn-Trace-Id"%string,
                    trace_header (trace_id seg1) (segment_id seg2))] w2
       = (Raise e, w3) ->
     process_message msgid message priority st =
       (Raise e,
        mkState (log st ++ [ECurrentSegment; ECurrentSegment]) w3)).
Proof.
  split.
  - intros w H.
    unfold process_message, current_trace_id, bind, call, raise.
    rewrite H. reflexivity.
  - intros seg1 w1 seg2 w2 e w3 H1 H2 H3.
    unfold process_message, current_trace_id, current_segment_id, bind,
      call, outside, ret.
    rewrite H1. cbn [backend log]. rewrite H2. cbn [backend log].
    unfold trace_header in H3. rewrite H3. cbn [backend log].
    rewrite <- app_assoc. reflexivity.
Qed.

End Server.

(** ** Instances of the further properties *)

Lemma mock_reliable : reliable Demo.working.
Proof.
  unfold reliable, keeps, Demo.working.
  split; [ | split; [ | split; [ | split]]].
  - intros name w o w' [Hs Hf] H.
    unfold begin_subsegment in H. simpl in H.
    unfold Mock.begin_subsegment, Mock.guard in H. rewrite Hf in H.
    inversion H; subst. simpl. auto.
  - intros w [Hs Hf]. simpl.
    unfold Mock.end_subsegment, Mock.guard. rewrite Hf.
    destruct (rev (Mock.subsegments w)); eauto.
  - intros w [Hs Hf].
    exists (match Mock.subsegments w with
            | [] => 0
            | _ :: _ => length (Mock.subsegments w)
            end), w.
    split; [ | auto].
    exists (Some 0),
      (match Mock.subsegments w with
       | [] => None
       | _ :: _ => Some (length (Mock.subsegments w))
       end), w.
    simpl. unfold Mock.current_segment, Mock.current_subsegment, Mock.guard.
    rewrite !Hf. destruct (Mock.segment w); [ | contradiction Hs; auto].
    destruct (Mock.subsegments w); auto.
  - intros sp key value w [Hs Hf]. simpl.
    unfold Mock.put_annotation, Mock.guard. rewrite Hf.
    eexists. split; [reflexivity | ].
    destruct sp; simpl; split; auto.
    destruct (Mock.segment w); [discriminate | contradiction Hs; auto].
  - intros sp key value w [Hs Hf]. simpl.
    unfold Mock.put_metadata, Mock.guard. rewrite Hf.
    eexists. split; [reflexivity | ].
    destruct sp; simpl; split; auto.
    destruct (Mock.segment w); [discriminate | contradiction Hs; auto].
Qed.

Lemma mock_working_fresh : Demo.working (Mock.fresh Mock.no_fault).
Proof. split; [discriminate | reflexivity]. Qed.

(** A function that leaves the backend as it is keeps every invariant. *)
Lemma unchanged_keeps {A} (Inv : Mock.world -> Prop)
    (op : Mock.world -> outcome A * Mock.world) :
  (forall w, snd (op w) = w) -> @keeps mock_backend A Inv op.
Proof.
  intros H w o w' HI E. specialize (H w). rewrite E in H. simpl in H.
  subst. exact HI.
Qed.

Lemma example_working : @working_services mock_backend Demo.example
                          Demo.working.
Proof.
  split; [exact mock_reliable | ]. split; [ | split; [ | split; [ | split]]].
  - intros w [Hs Hf]. exists 0, w. split; [ | split; assumption].
    simpl. unfold Mock.current_segment, Mock.guard. rewrite Hf.
    destruct (Mock.segment w); [reflexivity | contradiction Hs; auto].
  - intros name w [Hs Hf]. simpl.
    unfold Mock.begin_subsegment, Mock.guard. rewrite Hf. eauto.
  - intros url headers w HI. exists w. split; [reflexivity | exact HI].
  - intros priority a k. apply unchanged_keeps. intros w.
    unfold processor_body. destruct (equals_str priority "High");
      reflexivity.
  - intros priority a k w x w'. unfold processor_body.
    destruct (equals_str priority "High"); simpl; intros H;
      inversion H; subst; split; reflexivity.
Qed.

(** [test_record_decorator_segment]: two annotations, then the
    metadata. *)
Lemma wrapper_records_both_halves_witness :
  writes
    (new_events (Run.state0 Mock.no_fault)
       (snd (wrapper (Some Run.recorder) None Run.dispatch [] Run.message
                     (Run.state0 Mock.no_fault))))
    = [(true, (PStr "id", PStr "m1")); (true, (PStr "errors", PInt 0));
       (false, (PStr "kpi",
                PDict [(PStr "type", PStr "foo");
                       (PStr "value", PStr "bar")]))].
Proof.
  exact (wrapper_records_both_halves Run.recorder None Run.dispatch []
           Run.message (Run.state0 Mock.no_fault) _ _ _ _ _ _ _
           eq_refl eq_refl eq_refl eq_refl).
Defined.

(** A Record whose second searchable entry is a dict: the first entry is
    written, nothing else. *)
Lemma record_extracted_writes_in_order_witness :
  exists a b,
    writes
      (new_events (Run.state0 Mock.no_fault)
         (snd (record_extracted
                 (PRecord (PDict [(PStr "id", PStr "m1");
                                  (PStr "kpi", PDict [])])
                          (PDict [(PStr "kpi", PDict [])]))
                 (Run.state0 Mock.no_fault))))
      = map (pair true) a ++ map (pair false) b /\
    is_prefix a [(PStr "id", PStr "m1"); (PStr "kpi", PDict [])] /\
    is_prefix b [(PStr "kpi", PDict [])].
Proof.
  destruct (record_extracted_writes_in_order
              (PDict [(PStr "id", PStr "m1"); (PStr "kpi", PDict [])])
              (PDict [(PStr "kpi", PDict [])])
              (Run.state0 Mock.no_fault))
    as (a & b & W & Pa & Pb & _).
  exists a, b. auto.
Defined.

(** [begin_subsegment] raises: the function is not called, the scope is
    closed all the same. *)
Lemma scope_open_failure_witness :
  f_calls
    (new_events (Run.state0 Demo.begin_down)
       (snd (wrapper None (Some "ss1"%string) Run.dispatch [] Run.message
                     (Run.state0 Demo.begin_down)))) = [] /\
  exists work,
    new_events (Run.state0 Demo.begin_down)
      (snd (wrapper None (Some "ss1"%string) Run.dispatch [] Run.message
                    (Run.state0 Demo.begin_down)))
      = EBegin "ss1" :: work ++ [EEnd].
Proof.
  destruct (scope_open_failure None "ss1"%string Run.dispatch []
              Run.message (Run.state0 Demo.begin_down) Run.RuntimeError
              (Mock.fresh Demo.begin_down) eq_refl)
    as (Hf & _ & work & Hw & _).
  split; [exact Hf | exists work; exact Hw].
Defined.

(** A [KeyboardInterrupt] of the wrapped function reaches the caller. *)
Lemma wrapper_passes_non_Exception_witness :
  exists st2,
    wrapper None (Some "ss1"%string) (Run.failing Run.KeyboardInterrupt) []
            Run.message (Run.state0 Mock.no_fault)
      = (Raise Run.KeyboardInterrupt, st2).
Proof.
  pose proof (wrapper_passes_non_Exception None (Some "ss1"%string)
                (Run.failing Run.KeyboardInterrupt) [] Run.message
                (Run.state0 Mock.no_fault) Run.KeyboardInterrupt _ _
                ltac:(eapply f_raises; reflexivity) eq_refl eq_refl)
    as [H _].
  eexists. exact H.
Defined.

(** The recorder raises on the working recording backend: [None]. *)
Lemma wrapper_on_reliable_backend_witness :
  fst (wrapper (Some (Run.raising Run.ZeroDivisionError))
               (Some "ss1"%string) Run.dispatch [] Run.message
               (Run.state0 Mock.no_fault)) = Ok PNone.
Proof.
  rewrite (wrapper_on_reliable_backend (B := mock_backend) Demo.working
             (Some (Run.raising Run.ZeroDivisionError))
             (Some "ss1"%string) Run.dispatch [] Run.message
             (Run.state0 Mock.no_fault) mock_reliable mock_working_fresh).
  - reflexivity.
  - intros a k. apply unchanged_keeps. reflexivity.
  - intros r Heq a b. inversion Heq; subst.
    apply unchanged_keeps. reflexivity.
Defined.

(** The call [dispatch(msgid='m1')] of the server. *)
Lemma dispatch_recorded_witness :
  exists st',
    @record mock_backend (Some (@recorder_segment mock_backend Demo.example))
      None (Demo.answers Demo.response) [] [("msgid"%string, PStr "m1")]
      (Run.state0 Mock.no_fault) = (Ok Demo.response, st') /\
    writes (new_events (Run.state0 Mock.no_fault) st') =
      [(true, (PStr "messageid", PStr "m1"));
       (false, (PStr "notification",
                PDict [(PStr "id", PStr "sms:1");
                       (PStr "channel", PStr "sms")]))].
Proof.
  eapply (@dispatch_recorded mock_backend Demo.example Demo.working
           (Demo.answers Demo.response) [] [("msgid"%string, PStr "m1")]
           (Run.state0 Mock.no_fault) Demo.response _ Demo.notification
           (PStr "sms:1") (PStr "sms") (PStr "m1")
           mock_reliable mock_working_fresh).
  - intros a k. apply unchanged_keeps. reflexivity.
  - reflexivity.
  - reflexivity.
  - reflexivity.
  - reflexivity.
  - reflexivity.
  - reflexivity.
Defined.

(** The call [dispatch('m1')] of the server: [None] comes back. *)
Lemma dispatch_without_keyword_msgid_witness :
  exists st',
    @record mock_backend (Some (@recorder_segment mock_backend Demo.example))
      None (Demo.answers Demo.response) [PStr "m1"] []
      (Run.state0 Mock.no_fault) = (Ok PNone, st') /\
    writes (new_events (Run.state0 Mock.no_fault) st') =
      [(true, (PStr "instrumentation_error", PBool true));
       (false, (PStr "instrumentation_error_detail",
                error_detail (Run.KeyError "msgid")))].
Proof.
  eapply (@dispatch_without_keyword_msgid mock_backend Demo.example
           Demo.working (Demo.answers Demo.response) [PStr "m1"] []
           (Run.state0 Mock.no_fault) Demo.response _ Demo.notification
           (PStr "sms:1") (PStr "sms") mock_reliable mock_working_fresh).
  - intros a k. apply unchanged_keeps. reflexivity.
  - reflexivity.
  - reflexivity.
  - reflexivity.
  - reflexivity.
  - intros [].
Defined.

(** A message of high priority whose sms body fails: the answer carries
    [None] as notification id. *)
Lemma process_message_hides_processor_failure_witness :
  fst (@process_message mock_backend Demo.example "m1" (PStr "hello")
         (PStr "High") (Run.state0 Mock.no_fault))
    = Ok (PDict [(PStr "notificationid", PNone);
                 (PStr "channel", PStr "sms")]).
Proof.
  destruct (@process_message_hides_processor_failure mock_backend
              Demo.example Demo.working "m1" (PStr "hello") (PStr "High")
              (Run.state0 Mock.no_fault) example_working
              mock_working_fresh)
    as (seg1 & w1 & seg2 & w2 & w3 & wb & _ & _ & _ & _ & H).
  exact H.
Defined.

(** A message of low priority goes through the [email] subsegment. *)
Lemma process_message_scope_witness :
  exists calls work,
    new_events (Run.state0 Mock.no_fault)
      (snd (@process_message mock_backend Demo.example "m1" (PStr "hello")
              (PStr "Low") (Run.state0 Mock.no_fault)))
      = [ECurrentSegment; ECurrentSegment; EBegin "email"]
        ++ calls ++ work ++ [EEnd].
Proof.
  destruct (@process_message_scope mock_backend Demo.example "m1"
              (PStr "hello") (PStr "Low") (Run.state0 Mock.no_fault)
              0 (Mock.fresh Mock.no_fault) 0 (Mock.fresh Mock.no_fault)
              (Mock.fresh Mock.no_fault) eq_refl eq_refl eq_refl)
    as ((calls & work & H & _) & _).
  exists calls, work. exact H.
Defined.

(** Outside a request: the accessor raises, nothing else happens. *)
Lemma process_message_fails_early_witness :
  @process_message mock_backend Demo.example "m1" (PStr "hello")
    (PStr "High") Demo.no_segment
    = (Raise (AttributeError TNoneType "trace_id"),
       mkState [ECurrentSegment] (backend Demo.no_segment)).
Proof.
  exact (proj1 (@process_message_fails_early mock_backend Demo.example
                  "m1" (PStr "hello") (PStr "High") Demo.no_segment)
               (backend Demo.no_segment) eq_refl).
Defined.

(** [record_data("k", OrderedDict(), false)] is refused. *)
Lemma record_data_tests_exact_types_witness :
  record_data (PStr "k") (PMapping "OrderedDict" []) false
              (Run.state0 Mock.no_fault)
    = (Raise (ValueError NON_SEARCHABLE_TYPE_MSG), Run.state0 Mock.no_fault).
Proof.
  exact (proj2 (record_data_tests_exact_types
                  (PStr "k") (PMapping "OrderedDict" []) false
                  (Run.state0 Mock.no_fault))
               eq_refl eq_refl).
Defined.
